(** * Quantum resource estimator: the estimation engine of [src/App.js]

    The engine is numeric JavaScript.  Two readings of the same program text
    are given:

    - [JS]: numbers are IEEE-754 binary64 values (Rocq's primitive floats),
      with NaN, signed zeros and infinities.  Arithmetic, comparison,
      [Math.sqrt], [Math.floor], [Math.ceil] and [Math.abs] are exact to the
      bit.  [Math.pow] and [Math.log10] follow ECMA-262: their special cases
      are spelled out, and the implementation-approximated remainder is a
      field of the class [MathEngine].
    - [Ideal]: numbers are real numbers and every operation is exact.  This
      is the reading in which the analytic properties of the formulas
      (monotonicity, the log-scale round trip, the sampling grid) are
      stated. *)

From Stdlib Require Import ZArith Lia List String Bool.
From Stdlib Require Import Floats.
From Stdlib Require Import Reals Lra Sorted.
Import ListNotations.

Set Warnings "-inexact-float".

(** ** Binary64 reading *)

Module JS.

Local Open Scope float_scope.

(** *** The [Math] object *)

(** The part of [Math.pow] and [Math.log10] that ECMA-262 leaves
    "implementation-approximated". *)
Class MathEngine : Type := {
  pow_approx : float -> float -> float;
  log10_approx : float -> float
}.

(** An integer as a Number; exact when [|z| < 2^53]. *)
Definition float_of_Z (z : Z) : float :=
  if (z <? 0)%Z then - PrimFloat.of_uint63 (Uint63.of_Z (- z))
  else PrimFloat.of_uint63 (Uint63.of_Z z).

Definition float_of_nat (i : nat) : float := float_of_Z (Z.of_nat i).

(** [Math.floor]: a finite Number [(-1)^s * m * 2^e] with [e < 0] is rounded
    down ([Z.shiftr] is floor division); every other Number is already
    integral, a zero, an infinity or NaN and is returned unchanged. *)
Definition Math_floor (x : float) : float :=
  match Prim2SF x with
  | S754_finite s m e =>
      if (0 <=? e)%Z then x
      else float_of_Z (Z.shiftr (cond_Zopp s (Zpos m)) (- e))
  | _ => x
  end.

(** [Math.ceil(x)] is [-Math.floor(-x)] (ECMA-262, note to Math.ceil). *)
Definition Math_ceil (x : float) : float := - Math_floor (- x).

Definition Math_abs (x : float) : float := PrimFloat.abs x.

Definition Math_sqrt (x : float) : float := PrimFloat.sqrt x.

Definition is_integral (x : float) : bool :=
  PrimFloat.is_finite x && (Math_floor x =? x).

Definition is_odd_integral (x : float) : bool :=
  is_integral x && negb (is_integral (x / 2)).

(** [Math.pow(base, exponent)], that is Number::exponentiate of ECMA-262. *)
Definition Math_pow {E : MathEngine} (base exponent : float) : float :=
  if PrimFloat.is_nan exponent then nan
  else if PrimFloat.is_zero exponent then 1
  else if PrimFloat.is_nan base then nan
  else if PrimFloat.is_infinity base then
    if PrimFloat.get_sign base then
      if 0 <? exponent
      then (if is_odd_integral exponent then neg_infinity else infinity)
      else (if is_odd_integral exponent then neg_zero else zero)
    else (if 0 <? exponent then infinity else zero)
  else if PrimFloat.is_zero base then
    if PrimFloat.get_sign base then
      if 0 <? exponent
      then (if is_odd_integral exponent then neg_zero else zero)
      else (if is_odd_integral exponent then neg_infinity else infinity)
    else (if 0 <? exponent then zero else infinity)
  else if PrimFloat.is_infinity exponent then
    if PrimFloat.get_sign exponent then
      if 1 <? Math_abs base then zero
      else if Math_abs base =? 1 then nan else infinity
    else
      if 1 <? Math_abs base then infinity
      else if Math_abs base =? 1 then nan else zero
  else if (base <? 0) && negb (is_integral exponent) then nan
  else pow_approx base exponent.

(** [Math.log10(x)]. *)
Definition Math_log10 {E : MathEngine} (x : float) : float :=
  if PrimFloat.is_nan x then nan
  else if x =? infinity then infinity
  else if x =? 1 then zero
  else if PrimFloat.is_zero x then neg_infinity
  else if x <? 0 then nan
  else log10_approx x.

(** [Math.max(a, b)] for two arguments. *)
Definition Math_max (a b : float) : float :=
  if PrimFloat.is_nan a || PrimFloat.is_nan b then nan
  else if a <? b then b
  else if b <? a then a
  else if PrimFloat.get_sign a then b else a.

(** *** Log-scale slider mapping *)

Definition toLogScale {E : MathEngine} (value min max : float) : float :=
  let minLog := Math_log10 min in
  let maxLog := Math_log10 max in
  (Math_log10 value - minLog) / (maxLog - minLog) * 100.

Definition fromLogScale {E : MathEngine} (value min max : float) : float :=
  let minLog := Math_log10 min in
  let maxLog := Math_log10 max in
  Math_pow 10 (minLog + (value / 100) * (maxLog - minLog)).

(** *** The code library *)

(** The object handed to [calculateParams]; only [p], [n] and [k] are read. *)
Record Params : Type := {
  params_p : float;
  params_n : float;
  params_k : float;
  params_epsilon_L : float
}.

(** The object built by [calculateParams].  A property that the code of a
    family never assigns is [None]. *)
Record Result : Type := {
  result_d : option float;
  result_n_ancilla : option float;
  result_epsilon_L : float;
  result_k : option float;
  result_n : float
}.

Record CodeModel : Type := {
  name : string;
  threshold : float;
  calculateParams : Params -> Result
}.

Section Library.

Context {E : MathEngine}.

Definition surface : CodeModel := {|
  name := "Surface Code";
  threshold := 0.011;
  calculateParams := fun params =>
    let p_ratio := params_p params / 0.011 in
    let d := Math_floor (Math_sqrt (params_n params / params_k params)) in
    let n_ancilla := params_k params * (Math_pow (d - 1) 2 + 2 * (d - 1)) in
    let epsilon_L := 0.03 * params_k params * Math_pow p_ratio (d / 2) in
    {| result_d := Some d;
       result_n_ancilla := Some n_ancilla;
       result_epsilon_L := epsilon_L;
       result_k := Some (params_k params);
       result_n := params_n params |}
|}.

Definition yoked_1d : CodeModel := {|
  name := "1D Yoked Surface Code";
  threshold := 0.011;
  calculateParams := fun params =>
    let p_ratio := params_p params / 0.011 in
    let d_in := Math_floor (Math_sqrt (params_n params / params_k params)) in
    let mu_1d := 1.8 in
    let d := Math_floor (mu_1d * d_in) in
    let n_ancilla :=
      params_k params * (Math_pow (d_in - 1) 2 + 2 * (d_in - 1)) * 1.2 in
    let epsilon_L :=
      0.03 * params_k params * Math_pow p_ratio (Math_ceil (d / 2)) in
    {| result_d := Some d;
       result_n_ancilla := Some n_ancilla;
       result_epsilon_L := epsilon_L;
       result_k := Some (params_k params);
       result_n := params_n params |}
|}.

Definition yoked_2d : CodeModel := {|
  name := "2D Yoked Surface Code";
  threshold := 0.011;
  calculateParams := fun params =>
    let p_ratio := params_p params / 0.011 in
    let d_in := Math_floor (Math_sqrt (params_n params / params_k params)) in
    let mu_2d := 3.2 in
    let d := Math_floor (mu_2d * d_in) in
    let n_ancilla :=
      params_k params * (Math_pow (d_in - 1) 2 + 2 * (d_in - 1)) * 1.5 in
    let epsilon_L :=
      0.03 * params_k params * Math_pow p_ratio (Math_ceil (d / 2)) in
    {| result_d := Some d;
       result_n_ancilla := Some n_ancilla;
       result_epsilon_L := epsilon_L;
       result_k := Some (params_k params);
       result_n := params_n params |}
|}.

Definition color : CodeModel := {|
  name := "Color Code";
  threshold := 0.0036;
  calculateParams := fun params =>
    let p_ratio := params_p params / 0.0036 in
    let d := Math_floor (Math_sqrt (params_n params / params_k params)) in
    let n_ancilla := params_k params * (Math_pow (d - 1) 2 + 2 * (d - 1)) in
    let epsilon_L :=
      0.03 * params_k params * Math_pow p_ratio (Math_ceil (d / 2)) in
    {| result_d := Some d;
       result_n_ancilla := Some n_ancilla;
       result_epsilon_L := epsilon_L;
       result_k := Some (params_k params);
       result_n := params_n params |}
|}.

Definition hypergraph : CodeModel := {|
  name := "Hypergraph Product Code";
  threshold := 0.006;
  calculateParams := fun params =>
    let p_ratio := params_p params / 0.006 in
    let epsilon_L :=
      0.07 * Math_pow p_ratio (0.47 * Math_pow (params_n params) 0.27) in
    {| result_d := None;
       result_n_ancilla := None;
       result_epsilon_L := epsilon_L;
       result_k := None;
       result_n := params_n params |}
|}.

Definition lifted : CodeModel := {|
  name := "Lifted Product Code";
  threshold := 0.0066;
  calculateParams := fun params =>
    let p_ratio := params_p params / 0.0066 in
    let epsilon_L :=
      2.3 * Math_pow p_ratio (0.11 * Math_pow (params_n params) 0.60) in
    {| result_d := None;
       result_n_ancilla := None;
       result_epsilon_L := epsilon_L;
       result_k := None;
       result_n := params_n params |}
|}.

(** [codeLibrary[code]]: the six own properties of the object literal. *)
Definition codeLibrary (code : string) : option CodeModel :=
  if String.eqb code "surface" then Some surface
  else if String.eqb code "yoked_1d" then Some yoked_1d
  else if String.eqb code "yoked_2d" then Some yoked_2d
  else if String.eqb code "color" then Some color
  else if String.eqb code "hypergraph" then Some hypergraph
  else if String.eqb code "lifted" then Some lifted
  else None.

(** [calculateResults], after the [parseFloat]/[parseInt] conversions of the
    inputs: either [setError] or [setResults] is called.  No operation inside
    [calculateParams] throws, so the [catch] branch is never taken. *)
Definition double_quote : string :=
  String (Ascii.ascii_of_nat 34) EmptyString.

Inductive Outcome : Type :=
| SetError (message : string)
| SetResults (calculatedResults : Result).

Definition calculateResults (code : string) (params : Params) : Outcome :=
  match codeLibrary code with
  | None =>
      SetError ("Code " ++ double_quote ++ code ++ double_quote
                ++ " is not supported.")
  | Some selectedCode => SetResults (calculateParams selectedCode params)
  end.

(** *** Bisection on [n] *)

(** The variables of the binary search. *)
Record Search : Type := {
  nMin : float;
  nMax : float;
  minDiff : float;
  bestResult : option Result
}.

Definition midpoint (st : Search) : float :=
  Math_floor ((nMin st + nMax st) / 2).

(** The result evaluated by the iteration that starts in state [st]. *)
Definition evaluated (selectedCode : CodeModel) (p k target : float)
  (st : Search) : Result :=
  calculateParams selectedCode
    {| params_p := p; params_n := midpoint st; params_k := k;
       params_epsilon_L := target |}.

Definition log_distance (target : float) (result : Result) : float :=
  Math_abs (Math_log10 (result_epsilon_L result) - Math_log10 target).

(** One pass through the body shared by the two search loops (the loop of
    [findRequiredN] and the inner loop of [generatePlotData]). *)
Definition bisect (selectedCode : CodeModel) (p k target : float)
  (st : Search) : Search :=
  let n := midpoint st in
  let result := evaluated selectedCode p k target st in
  let diff := log_distance target result in
  let minDiff' := if diff <? minDiff st then diff else minDiff st in
  let bestResult' :=
    if diff <? minDiff st then Some result else bestResult st in
  if target <? result_epsilon_L result
  then {| nMin := n; nMax := nMax st;
          minDiff := minDiff'; bestResult := bestResult' |}
  else {| nMin := nMin st; nMax := n;
          minDiff := minDiff'; bestResult := bestResult' |}.

(** [for (let j = 0; j < budget; j++) { body }], without [break]. *)
Fixpoint iterate (budget : nat) (body : Search -> Search) (st : Search)
  : Search :=
  match budget with
  | O => st
  | S budget' => iterate budget' body (body st)
  end.

(** [let nMin = 10; let nMax = 1e6; let minDiff = Infinity;
    let bestResult = null]. *)
Definition findRequiredN_start : Search :=
  {| nMin := 10; nMax := 1e6; minDiff := infinity; bestResult := None |}.

Definition findRequiredN (code : string) (p target_epsilon_L k : float)
  : option Result :=
  match codeLibrary code with
  | None => None
  | Some selectedCode =>
      if threshold selectedCode <=? p then None
      else
        bestResult
          (iterate 20 (bisect selectedCode p k target_epsilon_L)
             findRequiredN_start)
  end.

(** The inner loop of [generatePlotData]: the same body, then
    [if (nMin > 1e9) break].  The second component is the variable [n]. *)
Fixpoint plotSearch (budget : nat) (selectedCode : CodeModel)
  (p k epsilon_L : float) (st : Search) (n : float) : Search * float :=
  match budget with
  | O => (st, n)
  | S budget' =>
      let n' := midpoint st in
      let st' := bisect selectedCode p k epsilon_L st in
      if 1e9 <? nMin st' then (st', n')
      else plotSearch budget' selectedCode p k epsilon_L st' n'
  end.

(** [let nMin = 10; let nMax = 1e10; let minDiff = Infinity;
    let bestResult = null]; the variable [n] starts as [nMin]. *)
Definition plotSearch_start : Search :=
  {| nMin := 10; nMax := 1e10; minDiff := infinity; bestResult := None |}.

(** *** Curve sampling *)

Record PlotData : Type := {
  pValues : list float;
  nValues : list float;
  kValues : list float;
  plot_threshold : float
}.

(** The [i]-th sampled error rate. *)
Definition sample_p (threshold : float) (i : nat) : float :=
  Math_pow 10
    (Math_log10 1e-6
     + (Math_log10 (threshold * 0.99) - Math_log10 1e-6)
       * (float_of_nat i / 49)).

Definition logicalQubits (code : string) (physicalQubits : float) : float :=
  if String.eqb code "hypergraph"
  then Math_max 1 (Math_floor (0.04 * physicalQubits))
  else if String.eqb code "lifted"
  then Math_max 1 (Math_floor (0.38 * Math_pow physicalQubits 0.85))
  else 1.

(** What one pass of the outer loop does once [p] is pushed: it runs the
    search, then either leaves the outer loop ([None], the
    [if (bestResult && bestResult.n > 1e9) break]) or goes on with
    [physicalQubits]. *)
Definition plotPoint (selectedCode : CodeModel) (p k epsilon_L : float)
  : option float :=
  let '(st, n) :=
    plotSearch 30 selectedCode p k epsilon_L plotSearch_start 10 in
  match bestResult st with
  | Some best => if 1e9 <? result_n best then None else Some (result_n best)
  | None => Some n
  end.

(** The outer loop of [generatePlotData] over the remaining indices;
    the three lists are what the remaining iterations push. *)
Fixpoint samples (code : string) (selectedCode : CodeModel)
  (epsilon_L k : float) (indices : list nat)
  : list float * list float * list float :=
  match indices with
  | [] => ([], [], [])
  | i :: indices' =>
      let p := sample_p (threshold selectedCode) i in
      if threshold selectedCode <=? p then ([], [], [])
      else
        match plotPoint selectedCode p k epsilon_L with
        | None => ([p], [], [])
        | Some physicalQubits =>
            let '(ps, ns, ks) :=
              samples code selectedCode epsilon_L k indices' in
            (p :: ps, physicalQubits :: ns,
             logicalQubits code physicalQubits :: ks)
        end
  end.

Definition generatePlotData (code : string) (epsilon_L k : float)
  : option PlotData :=
  match codeLibrary code with
  | None => None
  | Some selectedCode =>
      let '(ps, ns, ks) := samples code selectedCode epsilon_L k (seq 0 50) in
      Some {| pValues := ps; nValues := ns; kValues := ks;
              plot_threshold := threshold selectedCode |}
  end.

(** *** The iterations of the two searches *)

(** The results evaluated, in order, by [budget] passes of the loop of
    [findRequiredN] started in state [st]. *)
Fixpoint evaluations (budget : nat) (selectedCode : CodeModel)
  (p k target : float) (st : Search) : list Result :=
  match budget with
  | O => []
  | S budget' =>
      evaluated selectedCode p k target st
      :: evaluations budget' selectedCode p k target
           (bisect selectedCode p k target st)
  end.

(** The same for the inner loop of [generatePlotData], which stops after the
    pass that leaves [nMin > 1e9]. *)
Fixpoint plotEvaluations (budget : nat) (selectedCode : CodeModel)
  (p k epsilon_L : float) (st : Search) : list Result :=
  match budget with
  | O => []
  | S budget' =>
      evaluated selectedCode p k epsilon_L st
      :: (let st' := bisect selectedCode p k epsilon_L st in
          if 1e9 <? nMin st' then []
          else plotEvaluations budget' selectedCode p k epsilon_L st')
  end.

(** [best] is what a search that evaluated [results] retains: the result of
    an evaluation whose distance to the target is below [Infinity] and is
    undercut by no evaluation, or nothing when no distance is below
    [Infinity]. *)
Definition best_seen (target : float) (results : list Result)
  (best : option Result) : Prop :=
  match best with
  | Some r =>
      In r results
      /\ (log_distance target r <? infinity) = true
      /\ forall r', In r' results ->
           (log_distance target r' <? log_distance target r) = false
  | None =>
      forall r', In r' results -> (log_distance target r' <? infinity) = false
  end.

(** The invariant of both loops: [minDiff] is the distance of [bestResult]
    ([Infinity] when there is none), and no result evaluated so far is
    closer. *)
Definition retains (target : float) (results : list Result) (st : Search)
  : Prop :=
  match bestResult st with
  | Some r =>
      In r results /\ minDiff st = log_distance target r
      /\ (minDiff st <? infinity) = true
  | None => minDiff st = infinity
  end
  /\ forall r', In r' results -> (log_distance target r' <? minDiff st) = false.

(** [evaluate(code, p, n, k)] of the specification. *)
Definition evaluate (selectedCode : CodeModel) (p n k : float) : Result :=
  calculateParams selectedCode
    {| params_p := p; params_n := n; params_k := k; params_epsilon_L := 0 |}.

End Library.

(** The order of two finite binary64 numbers of the same sign, on their
    exponents and mantissas. *)
Definition lex_compare (e1 : Z) (m1 : positive) (e2 : Z) (m2 : positive)
  : comparison :=
  match Z.compare e1 e2 with
  | Lt => Lt
  | Gt => Gt
  | Eq => Pos.compare_cont Eq m1 m2
  end.

(** A binary64 value in the interval from [+0] (included) to 1 (excluded):
    [+0], or a positive [m * 2^e] with [m < 2^(-e)]. *)
Definition below_one (x : spec_float) : Prop :=
  match x with
  | S754_zero false => True
  | S754_finite false m e => (e < 0 /\ Z.pos m < 2 ^ (- e))%Z
  | _ => False
  end.

(** What the engines in use add to ECMA-262 for [Math.pow], as far as the
    code needs it: the square of an integer of at most 26 bits is exact.
    (fdlibm, from which the engines' [pow] derives, returns [x * x] when the
    exponent is 2, and the repository's tests expect
    [Math.pow(30, 2) + 2 * 30] to be 960.) *)
Definition exact_squares (E : MathEngine) : Prop :=
  forall x : float,
    is_integral x = true -> (Math_abs x <=? 67108864) = true ->
    pow_approx x 2 = x * x.

(** An engine used to run the definitions on concrete inputs: squares are
    computed by one multiplication, every other approximated value is NaN. *)
Definition square_engine : MathEngine := {|
  pow_approx := fun base exponent =>
    if exponent =? 2 then base * base else nan;
  log10_approx := fun _ => nan
|}.

(** An engine that knows the decimal logarithms of the bounds of the [p]
    slider, [1e-6] and [1e-1]. *)
Definition decade_engine : MathEngine := {|
  pow_approx := fun _ _ => nan;
  log10_approx := fun x =>
    if x =? 1e-6 then -6 else if x =? 1e-1 then -1 else nan
|}.

(** *** Integer brackets of the two searches *)

(** The bracket of a search state, in integers: [nMin] and [nMax] are the
    integers [a <= b] of the range from [lo] to [hi], [a] is below [hi],
    and the width [b - a] lies between [wl] and [wu]. *)
Definition bracket (lo hi wl wu : Z) (st : Search) : Prop :=
  exists a b : Z,
    nMin st = float_of_Z a /\ nMax st = float_of_Z b
    /\ (lo <= a <= b)%Z /\ (b <= hi)%Z /\ (a < hi)%Z
    /\ (wl <= b - a <= wu)%Z.

(** The logical error rate that the code returns at [n]. *)
Definition rate_at (selectedCode : CodeModel) (p k target n : float)
  : float :=
  result_epsilon_L
    (calculateParams selectedCode
       {| params_p := p; params_n := n; params_k := k;
          params_epsilon_L := target |}).

(** The least and the greatest width left of [wl] and [wu] by [j] passes:
    a pass keeps the floor or the ceiling of half the width. *)
Fixpoint halvings (j : nat) (wl wu : Z) : Z * Z :=
  match j with
  | O => (wl, wu)
  | S j' => halvings j' (wl / 2) ((wu + 1) / 2)
  end.

(** *** The rest of the component: effect on the distance, rendered values,
    regime tables, plotted points *)

(** ToBoolean of a Number: every Number but [+0], [-0] and NaN is truthy. *)
Definition truthy (x : float) : bool :=
  negb (PrimFloat.is_zero x || PrimFloat.is_nan x).

(** ToBoolean of a property that may be [undefined]. *)
Definition truthy_property (x : option float) : bool :=
  match x with
  | Some v => truthy v
  | None => false
  end.

(** The effect
    [if (results.d && results.d !== inputs.d)
       setInputs({...prev, d: results.d})]:
    the value of [inputs.d] once it has run. *)
Definition syncDistance (results_d : option float) (inputs_d : float)
  : float :=
  match results_d with
  | Some d => if truthy d && negb (d =? inputs_d) then d else inputs_d
  | None => inputs_d
  end.

(** The value of the JSX expression [x && (<div>...row...</div>)]: the row
    when [x] is truthy, else [x] itself, a falsy Number or [undefined]. *)
Inductive Shown : Type :=
| Row (content : float)
| Falsy (x : float)
| Undefined.

Definition guarded (x : option float) (content : float -> float) : Shown :=
  match x with
  | None => Undefined
  | Some v => if truthy v then Row (content v) else Falsy v
  end.

(** The six guarded rows of the results panel, each with the Number it
    prints (before [toLocaleString] or [toExponential]). *)
Record Panel : Type := {
  panel_n : Shown;
  panel_n_ancilla : Shown;
  panel_total : Shown;
  panel_k : Shown;
  panel_d : Shown;
  panel_epsilon_L : Shown
}.

Definition resultsPanel (results : Result) : Panel :=
  {| panel_n := guarded (Some (result_n results)) Math_ceil;
     panel_n_ancilla := guarded (result_n_ancilla results) Math_ceil;
     panel_total :=
       if truthy (result_n results)
       then guarded (result_n_ancilla results)
              (fun n_ancilla => Math_ceil (result_n results + n_ancilla))
       else Falsy (result_n results);
     panel_k := guarded (result_k results) (fun k => k);
     panel_d := guarded (result_d results) (fun d => d);
     panel_epsilon_L :=
       guarded (Some (result_epsilon_L results)) (fun epsilon_L => epsilon_L)
  |}.

(** [x || 0] for a property that may be [undefined]. *)
Definition or_zero (x : option float) : float :=
  match x with
  | Some v => if truthy v then v else 0
  | None => 0
  end.

(** A row of a regime table: the Numbers of its cells, and the parameters
    its link sets in the URL. *)
Record TableRow : Type := {
  row_p : float;
  row_n : float;
  row_d : option float;
  row_n_ancilla : float;
  row_total : float;
  row_epsilon_L : float;
  row_rate : float;
  link_code : string;
  link_p : float;
  link_epsilon_L : float;
  link_n : float;
  link_k : float
}.

Definition tableRow (code : string) (target p : float) (result : Result)
  : TableRow :=
  {| row_p := p;
     row_n := Math_ceil (result_n result);
     row_d := result_d result;
     row_n_ancilla := Math_ceil (or_zero (result_n_ancilla result));
     row_total :=
       Math_ceil (result_n result + or_zero (result_n_ancilla result));
     row_epsilon_L := result_epsilon_L result;
     row_rate := 1 / Math_ceil (result_n result);
     link_code := code;
     link_p := p;
     link_epsilon_L := target;
     link_n := Math_ceil (result_n result);
     link_k := 1 |}.

(** The error rates of the rows and the targets of the five tables. *)
Definition table_error_rates : list float := [5e-3; 1e-3; 1e-4; 1e-5].

Definition regimes : list float := [1e-3; 1e-6; 1e-9; 1e-12; 1e-15].

Section Component.

Context {E : MathEngine}.

(** [[5e-3, 1e-3, 1e-4, 1e-5].map(p => ...)]: [None] is the [null] returned
    for a row when [findRequiredN] found nothing. *)
Definition regimeTable (code : string) (target : float)
  : list (option TableRow) :=
  map (fun p => option_map (tableRow code target p)
                  (findRequiredN code p target 1))
    table_error_rates.

(** A point of a plotted curve; [array[i]] past the end is [undefined]. *)
Record Point : Type := {
  point_x : float;
  point_y : option float;
  point_k : option float
}.

(** [pValues.map((p, i) => ({x: p, y: nValues[i], k: kValues[i]}))],
    from index [i] on. *)
Fixpoint points_from (i : nat) (ps ns ks : list float) : list Point :=
  match ps with
  | [] => []
  | p :: ps' =>
      {| point_x := p; point_y := nth_error ns i; point_k := nth_error ks i |}
      :: points_from (S i) ps' ns ks
  end.

Definition plotDataset (code : string) (epsilon_L k : float)
  : option (list Point) :=
  option_map
    (fun data => points_from 0 (pValues data) (nValues data) (kValues data))
    (generatePlotData code epsilon_L k).

End Component.

(** *** The earlier version of the component (the first half of [App.js]) *)

Module Legacy.

Section Library.

Context {E : MathEngine}.

Definition surface : CodeModel := {|
  name := "Surface Code";
  threshold := 0.011;
  calculateParams := fun params =>
    let p_ratio := params_p params / 0.011 in
    let d := Math_floor (Math_sqrt (params_n params / params_k params)) in
    let n_ancilla := params_k params * (Math_pow (d - 1) 2 + 2 * (d - 1)) in
    let epsilon_L := 0.03 * params_k params * Math_pow p_ratio (d / 2) in
    {| result_d := Some d;
       result_n_ancilla := Some n_ancilla;
       result_epsilon_L := epsilon_L;
       result_k := Some (params_k params);
       result_n := params_n params |}
|}.

Definition hypergraph : CodeModel := {|
  name := "Hypergraph Product Code";
  threshold := 0.006;
  calculateParams := fun params =>
    let p_ratio := params_p params / 0.006 in
    let epsilon_L :=
      0.07 * Math_pow p_ratio (0.47 * Math_pow (params_n params) 0.27) in
    {| result_d := None;
       result_n_ancilla := None;
       result_epsilon_L := epsilon_L;
       result_k := None;
       result_n := params_n params |}
|}.

Definition lifted : CodeModel := {|
  name := "Lifted Product Code";
  threshold := 0.0066;
  calculateParams := fun params =>
    let p_ratio := params_p params / 0.0066 in
    let epsilon_L :=
      2.3 * Math_pow p_ratio (0.11 * Math_pow (params_n params) 0.60) in
    {| result_d := None;
       result_n_ancilla := None;
       result_epsilon_L := epsilon_L;
       result_k := None;
       result_n := params_n params |}
|}.

Definition codeLibrary (code : string) : option CodeModel :=
  if String.eqb code "surface" then Some surface
  else if String.eqb code "hypergraph" then Some hypergraph
  else if String.eqb code "lifted" then Some lifted
  else None.

(** The variables of the loop of [findRequiredN]. *)
Record Search : Type := {
  nMin : float;
  nMax : float;
  bestN : float;
  minDiff : float;
  bestResult : option Result
}.

Definition bisect (selectedCode : CodeModel) (p k target : float)
  (st : Search) : Search :=
  let n := Math_floor ((nMin st + nMax st) / 2) in
  let result :=
    calculateParams selectedCode
      {| params_p := p; params_n := n; params_k := k;
         params_epsilon_L := target |} in
  let diff :=
    Math_abs (Math_log10 (result_epsilon_L result) - Math_log10 target) in
  let better := diff <? minDiff st in
  let minDiff' := if better then diff else minDiff st in
  let bestN' := if better then n else bestN st in
  let bestResult' := if better then Some result else bestResult st in
  if target <? result_epsilon_L result
  then {| nMin := n; nMax := nMax st; bestN := bestN';
          minDiff := minDiff'; bestResult := bestResult' |}
  else {| nMin := nMin st; nMax := n; bestN := bestN';
          minDiff := minDiff'; bestResult := bestResult' |}.

Fixpoint iterate (budget : nat) (body : Search -> Search) (st : Search)
  : Search :=
  match budget with
  | O => st
  | S budget' => iterate budget' body (body st)
  end.

Definition start : Search :=
  {| nMin := 10; nMax := 1e6; bestN := 10; minDiff := infinity;
     bestResult := None |}.

(** [findRequiredN] of the earlier version: no test of [p] against the
    threshold. *)
Definition findRequiredN (code : string) (p target_epsilon_L k : float)
  : option Result :=
  match codeLibrary code with
  | None => None
  | Some selectedCode =>
      bestResult
        (iterate 20 (bisect selectedCode p k target_epsilon_L) start)
  end.

(** The variables of the inner loop of [generatePlotData]; [n] starts as
    [nMin]. *)
Record PlotSearch : Type := {
  plot_nMin : float;
  plot_nMax : float;
  plot_n : float;
  plot_bestN : float;
  plot_minDiff : float
}.

Definition plotBisect (selectedCode : CodeModel) (p k epsilon_L : float)
  (st : PlotSearch) : PlotSearch :=
  let n := Math_floor ((plot_nMin st + plot_nMax st) / 2) in
  let result :=
    calculateParams selectedCode
      {| params_p := p; params_n := n; params_k := k;
         params_epsilon_L := epsilon_L |} in
  let diff :=
    Math_abs (Math_log10 (result_epsilon_L result) - Math_log10 epsilon_L) in
  let better := diff <? plot_minDiff st in
  let minDiff' := if better then diff else plot_minDiff st in
  let bestN' := if better then n else plot_bestN st in
  if epsilon_L <? result_epsilon_L result
  then {| plot_nMin := n; plot_nMax := plot_nMax st; plot_n := n;
          plot_bestN := bestN'; plot_minDiff := minDiff' |}
  else {| plot_nMin := plot_nMin st; plot_nMax := n; plot_n := n;
          plot_bestN := bestN'; plot_minDiff := minDiff' |}.

Fixpoint plotIterate (budget : nat) (body : PlotSearch -> PlotSearch)
  (st : PlotSearch) : PlotSearch :=
  match budget with
  | O => st
  | S budget' => plotIterate budget' body (body st)
  end.

Definition plotStart : PlotSearch :=
  {| plot_nMin := 10; plot_nMax := 1e6; plot_n := 10; plot_bestN := 10;
     plot_minDiff := infinity |}.

(** The [i]-th sampled error rate: the grid ends at the threshold itself. *)
Definition sample_p (threshold : float) (i : nat) : float :=
  Math_pow 10
    (Math_log10 1e-6
     + (Math_log10 threshold - Math_log10 1e-6) * (float_of_nat i / 49)).

Record PlotData : Type := {
  pValues : list float;
  nValues : list float
}.

(** [generatePlotData] of the earlier version: 50 passes, none left early. *)
Definition generatePlotData (code : string) (epsilon_L k : float)
  : option PlotData :=
  match codeLibrary code with
  | None => None
  | Some selectedCode =>
      let ps := map (sample_p (threshold selectedCode)) (seq 0 50) in
      Some {| pValues := ps;
              nValues :=
                map (fun p =>
                       plot_bestN
                         (plotIterate 20
                            (plotBisect selectedCode p k epsilon_L)
                            plotStart))
                  ps |}
  end.

End Library.

End Legacy.

End JS.

(** ** Exact reading *)

(** The same program text with real numbers for Numbers.  There is no NaN
    and no infinity here: where JavaScript would produce one ([Math.pow] of a
    negative base and a fractional exponent, or of zero and a negative
    exponent; [Math.log10] of a non-positive number) the value is left
    arbitrary, and the theorems stated on this reading exclude these inputs
    by hypothesis.  The initial [minDiff = Infinity] of the search is
    [None]. *)

Module Ideal.

Local Open Scope R_scope.

Definition Math_floor (x : R) : R := IZR (Int_part x).

Definition Math_ceil (x : R) : R := - Math_floor (- x).

Definition Math_abs (x : R) : R := Rabs x.

Definition Math_sqrt (x : R) : R := sqrt x.

Definition Math_max (a b : R) : R := Rmax a b.

Definition Math_pow (base exponent : R) : R :=
  if Req_dec_T exponent 0 then 1
  else if Rlt_dec 0 base then Rpower base exponent
  else if Req_dec_T base 0 then 0
  else if Req_dec_T (Math_floor exponent) exponent then
    if Z.even (Int_part exponent) then Rpower (- base) exponent
    else - Rpower (- base) exponent
  else 0.

Definition Math_log10 (x : R) : R := ln x / ln 10.

Definition toLogScale (value min max : R) : R :=
  let minLog := Math_log10 min in
  let maxLog := Math_log10 max in
  (Math_log10 value - minLog) / (maxLog - minLog) * 100.

Definition fromLogScale (value min max : R) : R :=
  let minLog := Math_log10 min in
  let maxLog := Math_log10 max in
  Math_pow 10 (minLog + (value / 100) * (maxLog - minLog)).

Record Params : Type := {
  params_p : R;
  params_n : R;
  params_k : R;
  params_epsilon_L : R
}.

Record Result : Type := {
  result_d : option R;
  result_n_ancilla : option R;
  result_epsilon_L : R;
  result_k : option R;
  result_n : R
}.

Record CodeModel : Type := {
  name : string;
  threshold : R;
  calculateParams : Params -> Result
}.

Definition surface : CodeModel := {|
  name := "Surface Code";
  threshold := 0.011;
  calculateParams := fun params =>
    let p_ratio := params_p params / 0.011 in
    let d := Math_floor (Math_sqrt (params_n params / params_k params)) in
    let n_ancilla := params_k params * (Math_pow (d - 1) 2 + 2 * (d - 1)) in
    let epsilon_L := 0.03 * params_k params * Math_pow p_ratio (d / 2) in
    {| result_d := Some d;
       result_n_ancilla := Some n_ancilla;
       result_epsilon_L := epsilon_L;
       result_k := Some (params_k params);
       result_n := params_n params |}
|}.

Definition yoked_1d : CodeModel := {|
  name := "1D Yoked Surface Code";
  threshold := 0.011;
  calculateParams := fun params =>
    let p_ratio := params_p params / 0.011 in
    let d_in := Math_floor (Math_sqrt (params_n params / params_k params)) in
    let mu_1d := 1.8 in
    let d := Math_floor (mu_1d * d_in) in
    let n_ancilla :=
      params_k params * (Math_pow (d_in - 1) 2 + 2 * (d_in - 1)) * 1.2 in
    let epsilon_L :=
      0.03 * params_k params * Math_pow p_ratio (Math_ceil (d / 2)) in
    {| result_d := Some d;
       result_n_ancilla := Some n_ancilla;
       result_epsilon_L := epsilon_L;
       result_k := Some (params_k params);
       result_n := params_n params |}
|}.

Definition yoked_2d : CodeModel := {|
  name := "2D Yoked Surface Code";
  threshold := 0.011;
  calculateParams := fun params =>
    let p_ratio := params_p params / 0.011 in
    let d_in := Math_floor (Math_sqrt (params_n params / params_k params)) in
    let mu_2d := 3.2 in
    let d := Math_floor (mu_2d * d_in) in
    let n_ancilla :=
      params_k params * (Math_pow (d_in - 1) 2 + 2 * (d_in - 1)) * 1.5 in
    let epsilon_L :=
      0.03 * params_k params * Math_pow p_ratio (Math_ceil (d / 2)) in
    {| result_d := Some d;
       result_n_ancilla := Some n_ancilla;
       result_epsilon_L := epsilon_L;
       result_k := Some (params_k params);
       result_n := params_n params |}
|}.

Definition color : CodeModel := {|
  name := "Color Code";
  threshold := 0.0036;
  calculateParams := fun params =>
    let p_ratio := params_p params / 0.0036 in
    let d := Math_floor (Math_sqrt (params_n params / params_k params)) in
    let n_ancilla := params_k params * (Math_pow (d - 1) 2 + 2 * (d - 1)) in
    let epsilon_L :=
      0.03 * params_k params * Math_pow p_ratio (Math_ceil (d / 2)) in
    {| result_d := Some d;
       result_n_ancilla := Some n_ancilla;
       result_epsilon_L := epsilon_L;
       result_k := Some (params_k params);
       result_n := params_n params |}
|}.

Definition hypergraph : CodeModel := {|
  name := "Hypergraph Product Code";
  threshold := 0.006;
  calculateParams := fun params =>
    let p_ratio := params_p params / 0.006 in
    let epsilon_L :=
      0.07 * Math_pow p_ratio (0.47 * Math_pow (params_n params) 0.27) in
    {| result_d := None;
       result_n_ancilla := None;
       result_epsilon_L := epsilon_L;
       result_k := None;
       result_n := params_n params |}
|}.

Definition lifted : CodeModel := {|
  name := "Lifted Product Code";
  threshold := 0.0066;
  calculateParams := fun params =>
    let p_ratio := params_p params / 0.0066 in
    let epsilon_L :=
      2.3 * Math_pow p_ratio (0.11 * Math_pow (params_n params) 0.60) in
    {| result_d := None;
       result_n_ancilla := None;
       result_epsilon_L := epsilon_L;
       result_k := None;
       result_n := params_n params |}
|}.

Definition codeLibrary (code : string) : option CodeModel :=
  if String.eqb code "surface" then Some surface
  else if String.eqb code "yoked_1d" then Some yoked_1d
  else if String.eqb code "yoked_2d" then Some yoked_2d
  else if String.eqb code "color" then Some color
  else if String.eqb code "hypergraph" then Some hypergraph
  else if String.eqb code "lifted" then Some lifted
  else None.

Record Search : Type := {
  nMin : R;
  nMax : R;
  minDiff : option R;
  bestResult : option Result
}.

Definition midpoint (st : Search) : R :=
  Math_floor ((nMin st + nMax st) / 2).

Definition evaluated (selectedCode : CodeModel) (p k target : R)
  (st : Search) : Result :=
  calculateParams selectedCode
    {| params_p := p; params_n := midpoint st; params_k := k;
       params_epsilon_L := target |}.

Definition log_distance (target : R) (result : Result) : R :=
  Math_abs (Math_log10 (result_epsilon_L result) - Math_log10 target).

(** [diff < minDiff], where [None] is [Infinity]. *)
Definition improves (diff : R) (minDiff : option R) : bool :=
  match minDiff with
  | None => true
  | Some m => if Rlt_dec diff m then true else false
  end.

Definition bisect (selectedCode : CodeModel) (p k target : R)
  (st : Search) : Search :=
  let n := midpoint st in
  let result := evaluated selectedCode p k target st in
  let diff := log_distance target result in
  let minDiff' := if improves diff (minDiff st) then Some diff else minDiff st in
  let bestResult' :=
    if improves diff (minDiff st) then Some result else bestResult st in
  if Rlt_dec target (result_epsilon_L result)
  then {| nMin := n; nMax := nMax st;
          minDiff := minDiff'; bestResult := bestResult' |}
  else {| nMin := nMin st; nMax := n;
          minDiff := minDiff'; bestResult := bestResult' |}.

Fixpoint plotSearch (budget : nat) (selectedCode : CodeModel)
  (p k epsilon_L : R) (st : Search) (n : R) : Search * R :=
  match budget with
  | O => (st, n)
  | S budget' =>
      let n' := midpoint st in
      let st' := bisect selectedCode p k epsilon_L st in
      if Rlt_dec 1e9 (nMin st') then (st', n')
      else plotSearch budget' selectedCode p k epsilon_L st' n'
  end.

Record PlotData : Type := {
  pValues : list R;
  nValues : list R;
  kValues : list R;
  plot_threshold : R
}.

Definition sample_p (threshold : R) (i : nat) : R :=
  Math_pow 10
    (Math_log10 1e-6
     + (Math_log10 (threshold * 0.99) - Math_log10 1e-6) * (INR i / 49)).

Definition logicalQubits (code : string) (physicalQubits : R) : R :=
  if String.eqb code "hypergraph"
  then Math_max 1 (Math_floor (0.04 * physicalQubits))
  else if String.eqb code "lifted"
  then Math_max 1 (Math_floor (0.38 * Math_pow physicalQubits 0.85))
  else 1.

Definition plotPoint (selectedCode : CodeModel) (p k epsilon_L : R)
  : option R :=
  let '(st, n) :=
    plotSearch 30 selectedCode p k epsilon_L
      {| nMin := 10; nMax := 1e10;
         minDiff := None; bestResult := None |} 10 in
  match bestResult st with
  | Some best =>
      if Rlt_dec 1e9 (result_n best) then None else Some (result_n best)
  | None => Some n
  end.

Fixpoint samples (code : string) (selectedCode : CodeModel)
  (epsilon_L k : R) (indices : list nat) : list R * list R * list R :=
  match indices with
  | [] => ([], [], [])
  | i :: indices' =>
      let p := sample_p (threshold selectedCode) i in
      if Rle_dec (threshold selectedCode) p then ([], [], [])
      else
        match plotPoint selectedCode p k epsilon_L with
        | None => ([p], [], [])
        | Some physicalQubits =>
            let '(ps, ns, ks) :=
              samples code selectedCode epsilon_L k indices' in
            (p :: ps, physicalQubits :: ns,
             logicalQubits code physicalQubits :: ks)
        end
  end.

Definition generatePlotData (code : string) (epsilon_L k : R)
  : option PlotData :=
  match codeLibrary code with
  | None => None
  | Some selectedCode =>
      let '(ps, ns, ks) := samples code selectedCode epsilon_L k (seq 0 50) in
      Some {| pValues := ps; nValues := ns; kValues := ks;
              plot_threshold := threshold selectedCode |}
  end.

(** [evaluate(code, p, n, k)] of the specification. *)
Definition evaluate (selectedCode : CodeModel) (p n k : R) : Result :=
  calculateParams selectedCode
    {| params_p := p; params_n := n; params_k := k; params_epsilon_L := 0 |}.

(** The inner distance [d_in]. *)
Definition inner_distance (n k : R) : R := Math_floor (Math_sqrt (n / k)).


(** *** The sliders *)




End Ideal.

(** ** The reference definition of section 4.1 of the specification *)

(** Written from the table and the ancilla rule of the specification, over
    binary64, to be compared with [JS.calculateParams]. *)

Module Reference.

Import JS.

Local Open Scope float_scope.

(** The two formula families, with the constants of a row. *)
Inductive Law : Type :=
| DistanceLaw (mu : option float) (round_up : bool) (ancilla_scale : float)
| AlgebraicLaw (A alpha beta : float).

Record Entry : Type := {
  p_th : float;
  law : Law
}.

Definition table (id : string) : option Entry :=
  if String.eqb id "surface"
  then Some {| p_th := 0.011; law := DistanceLaw None false 1.0 |}
  else if String.eqb id "color"
  then Some {| p_th := 0.0036; law := DistanceLaw None true 1.0 |}
  else if String.eqb id "yoked_1d"
  then Some {| p_th := 0.011; law := DistanceLaw (Some 1.8) true 1.2 |}
  else if String.eqb id "yoked_2d"
  then Some {| p_th := 0.011; law := DistanceLaw (Some 3.2) true 1.5 |}
  else if String.eqb id "hypergraph"
  then Some {| p_th := 0.006; law := AlgebraicLaw 0.07 0.47 0.27 |}
  else if String.eqb id "lifted"
  then Some {| p_th := 0.0066; law := AlgebraicLaw 2.3 0.11 0.60 |}
  else None.

(** What section 4.1 defines for an input: the distance and the ancilla count
    ("n/a" is [None]) and the logical error rate. *)
Record Outcome : Type := {
  d : option float;
  n_ancilla : option float;
  epsilon_L : float
}.

Definition evaluate {E : MathEngine} (entry : Entry) (p n k : float)
  : Outcome :=
  match law entry with
  | DistanceLaw mu round_up ancilla_scale =>
      let d_in := Math_floor (Math_sqrt (n / k)) in
      let d :=
        match mu with
        | None => d_in
        | Some mu => Math_floor (mu * d_in)
        end in
      let exponent := if round_up then Math_ceil (d / 2) else d / 2 in
      {| d := Some d;
         n_ancilla :=
           Some (k * (Math_pow (d_in - 1) 2 + 2 * (d_in - 1))
                 * ancilla_scale);
         epsilon_L := 0.03 * k * Math_pow (p / p_th entry) exponent |}
  | AlgebraicLaw A alpha beta =>
      {| d := None;
         n_ancilla := None;
         epsilon_L :=
           A * Math_pow (p / p_th entry) (alpha * Math_pow n beta) |}
  end.

End Reference.

(** The six identifiers under which [codeLibrary] registers a code. *)
Definition registered : list string :=
  ["surface"; "yoked_1d"; "yoked_2d"; "color"; "hypergraph";
   "lifted"]%string.


(** * Properties *)

(** ** Binary64 reading *)

Module Binary64.

Import JS.

Local Open Scope float_scope.

(** *** Facts about binary64, from the specification of the primitives *)

Lemma lex_compare_Lt e1 m1 e2 m2 :
  lex_compare e1 m1 e2 m2 = Lt
  <-> (e1 < e2 \/ (e1 = e2 /\ (m1 < m2)%positive))%Z.
Proof.
  unfold lex_compare. fold (Pos.compare m1 m2).
  destruct (Z.compare_spec e1 e2); destruct (Pos.compare_spec m1 m2);
    split; intros; try discriminate; try reflexivity; try lia.
Qed.

Lemma lex_compare_Gt e1 m1 e2 m2 :
  lex_compare e1 m1 e2 m2 = Gt
  <-> (e2 < e1 \/ (e1 = e2 /\ (m2 < m1)%positive))%Z.
Proof.
  unfold lex_compare. fold (Pos.compare m1 m2).
  destruct (Z.compare_spec e1 e2); destruct (Pos.compare_spec m1 m2);
    split; intros; try discriminate; try reflexivity; try lia.
Qed.

Lemma lex_compare_Eq e1 m1 e2 m2 :
  lex_compare e1 m1 e2 m2 = Eq <-> (e1 = e2 /\ m1 = m2).
Proof.
  unfold lex_compare. fold (Pos.compare m1 m2).
  destruct (Z.compare_spec e1 e2); destruct (Pos.compare_spec m1 m2);
    split; intros; try discriminate; try reflexivity; try lia.
Qed.

Lemma CompOpp_Lt c : CompOpp c = Lt <-> c = Gt.
Proof. destruct c; simpl; split; congruence. Qed.

Lemma CompOpp_Gt c : CompOpp c = Gt <-> c = Lt.
Proof. destruct c; simpl; split; congruence. Qed.

Lemma SFcompare_finite s1 m1 e1 s2 m2 e2 :
  SFcompare (S754_finite s1 m1 e1) (S754_finite s2 m2 e2) =
  Some match s1, s2 with
       | true, false => Lt
       | false, true => Gt
       | false, false => lex_compare e1 m1 e2 m2
       | true, true => CompOpp (lex_compare e1 m1 e2 m2)
       end.
Proof.
  unfold lex_compare; simpl. destruct s1, s2; try reflexivity;
    destruct (e1 ?= e2)%Z; reflexivity.
Qed.

Lemma SFcompare_lt_trans x y z :
  SFcompare x y = Some Lt -> SFcompare y z = Some Lt ->
  SFcompare x z = Some Lt.
Proof.
  destruct x as [sx|sx| |sx mx ex], y as [sy|sy| |sy my ey],
           z as [sz|sz| |sz mz ez];
    rewrite ?SFcompare_finite;
    try (simpl; discriminate);
    try (destruct sx; simpl; discriminate);
    try (destruct sx, sy; simpl; discriminate);
    try (destruct sy, sz; simpl; discriminate);
    try (destruct sx, sy, sz; simpl; congruence).
  destruct sx, sy, sz; try congruence; intros H1 H2; f_equal;
    injection H1 as H1; injection H2 as H2;
    rewrite ?CompOpp_Lt in *;
    rewrite ?lex_compare_Lt, ?lex_compare_Gt in *; lia.
Qed.

Lemma SFcompare_lt_gt x y :
  SFcompare x y = Some Lt -> SFcompare y x = Some Gt.
Proof.
  destruct x as [sx|sx| |sx mx ex], y as [sy|sy| |sy my ey];
    rewrite ?SFcompare_finite;
    try (simpl; discriminate);
    try (destruct sx; simpl; (discriminate || reflexivity));
    try (destruct sy; simpl; (discriminate || reflexivity));
    try (destruct sx, sy; simpl; (discriminate || reflexivity)).
  destruct sx, sy; try congruence; intros H1; f_equal;
    injection H1 as H1;
    rewrite ?CompOpp_Lt, ?CompOpp_Gt in *;
    rewrite ?lex_compare_Lt, ?lex_compare_Gt in *; lia.
Qed.

Lemma SFcompare_refl x : x <> S754_nan -> SFcompare x x = Some Eq.
Proof.
  destruct x as [s|s| |s m e]; intros H; try congruence.
  - reflexivity.
  - destruct s; reflexivity.
  - rewrite SFcompare_finite. f_equal.
    assert (lex_compare e m e m = Eq) as ->
      by (apply lex_compare_Eq; auto).
    destruct s; reflexivity.
Qed.

(** [<] on Numbers is transitive. *)
Lemma ltb_trans x y z :
  (x <? y) = true -> (y <? z) = true -> (x <? z) = true.
Proof.
  rewrite !ltb_spec. unfold SFltb.
  destruct (SFcompare (Prim2SF x) (Prim2SF y)) as [[]|] eqn:H1;
    try discriminate.
  destruct (SFcompare (Prim2SF y) (Prim2SF z)) as [[]|] eqn:H2;
    try discriminate.
  now rewrite (SFcompare_lt_trans _ _ _ H1 H2).
Qed.

(** [x < y] excludes [x >= y]. *)
Lemma ltb_not_leb x y : (x <? y) = true -> (y <=? x) = false.
Proof.
  rewrite ltb_spec, leb_spec. unfold SFltb, SFleb.
  destruct (SFcompare (Prim2SF x) (Prim2SF y)) as [[]|] eqn:H1;
    try discriminate.
  now rewrite (SFcompare_lt_gt _ _ H1).
Qed.

Lemma ltb_irrefl x : (x <? x) = false.
Proof.
  destruct (x <? x) eqn:H; [|reflexivity].
  pose proof (ltb_not_leb _ _ H) as H'.
  rewrite ltb_spec in H. rewrite leb_spec in H'. unfold SFltb, SFleb in *.
  destruct (SFcompare (Prim2SF x) (Prim2SF x)) as [[]|]; discriminate.
Qed.

(** There is one NaN. *)
Lemma is_nan_eq x : PrimFloat.is_nan x = true -> x = nan.
Proof.
  unfold PrimFloat.is_nan. rewrite eqb_spec. unfold SFeqb. intros H.
  apply Prim2SF_inj.
  destruct (Prim2SF x) eqn:Hx; try reflexivity;
    rewrite SFcompare_refl in H by discriminate; discriminate.
Qed.

Lemma div_nan_l y : nan / y = nan.
Proof. apply Prim2SF_inj. rewrite div_spec. reflexivity. Qed.

Lemma mul_nan_r x : x * nan = nan.
Proof.
  apply Prim2SF_inj. rewrite mul_spec.
  change (Prim2SF nan) with S754_nan.
  unfold SF64mul, SFmul. destruct (Prim2SF x); reflexivity.
Qed.


Lemma iter_pos_commute {A} (f : A -> A) p x :
  SpecFloat.iter_pos f p (f x) = f (SpecFloat.iter_pos f p x).
Proof.
  revert x. induction p as [p IH|p IH|]; intros x; simpl.
  - now rewrite !IH.
  - now rewrite !IH.
  - reflexivity.
Qed.

Lemma iter_pos_succ {A} (f : A -> A) p x :
  SpecFloat.iter_pos f (Pos.succ p) x = SpecFloat.iter_pos f p (f x).
Proof.
  revert x. induction p as [p IH|p IH|]; intros x; simpl.
  - rewrite !IH. now rewrite <- (iter_pos_commute f p (f x)).
  - reflexivity.
  - reflexivity.
Qed.

Lemma iter_shr_1_xO m p :
  SpecFloat.iter_pos shr_1 p
    {| shr_m := Z.pos (Pos.iter xO m p); shr_r := false; shr_s := false |}
  = {| shr_m := Z.pos m; shr_r := false; shr_s := false |}.
Proof.
  induction p as [|p IH] using Pos.peano_ind.
  - reflexivity.
  - rewrite iter_pos_succ, Pos.iter_succ. exact IH.
Qed.

Lemma digits2_iter_xO m p :
  digits2_pos (Pos.iter xO m p) = (digits2_pos m + p)%positive.
Proof.
  induction p as [|p IH] using Pos.peano_ind.
  - simpl. lia.
  - rewrite Pos.iter_succ. simpl. rewrite IH. lia.
Qed.

Lemma pos_mul_pow2 m :
  (m * 4503599627370496 = Pos.iter xO m 52)%positive.
Proof. rewrite Pos.mul_comm. reflexivity. Qed.

(** Multiplying by [1.0] changes nothing: the product of the mantissas is
    the mantissa shifted by 52 bits, and rounding shifts it back. *)
Lemma mul_1_r x : x * 1 = x.
Proof.
  apply Prim2SF_inj. rewrite mul_spec.
  change (Prim2SF 1) with (S754_finite false 4503599627370496 (-52)).
  pose proof (Prim2SF_valid x) as Hv.
  destruct (Prim2SF x) as [s|s| |s m e];
    try (destruct s; reflexivity); try reflexivity.
  unfold SF64mul, SFmul.
  cbn [valid_binary] in Hv. unfold bounded, canonical_mantissa in Hv.
  apply andb_prop in Hv as [Hc Hb]. apply Z.eqb_eq in Hc.
  rewrite xorb_false_r.
  unfold binary_round_aux.
  assert (Hd : Zdigits2 (Z.pos (m * 4503599627370496))
               = (Z.pos (digits2_pos m) + 52)%Z).
  { rewrite pos_mul_pow2. cbn [Zdigits2]. rewrite digits2_iter_xO. lia. }
  unfold shr_fexp at 1. rewrite Hd.
  replace (Z.pos (digits2_pos m) + 52 + (e + -52))%Z
    with (Z.pos (digits2_pos m) + e)%Z by lia.
  rewrite Hc. replace (e - (e + -52))%Z with 52%Z by lia.
  rewrite pos_mul_pow2.
  cbn [shr shr_record_of_loc]. rewrite iter_shr_1_xO.
  cbn [shr_m loc_of_shr_record round_nearest_even].
  unfold shr_fexp. cbn [Zdigits2].
  replace (e + -52 + 52)%Z with e by lia.
  rewrite Hc. rewrite Z.sub_diag. cbn [shr shr_record_of_loc shr_m].
  change prec with 53%Z in *. change emax with 1024%Z in *.
  rewrite Hb. reflexivity.
Qed.

(** The sign of a product is the only place where the signs of the factors
    are used. *)
Lemma binary_round_aux_opp s m e l :
  binary_round_aux prec emax (negb s) m e l
  = SFopp (binary_round_aux prec emax s m e l).
Proof.
  unfold binary_round_aux.
  destruct (shr_fexp prec emax m e l) as [mrs' e'].
  destruct (shr_fexp prec emax
              (round_nearest_even (shr_m mrs') (loc_of_shr_record mrs'))
              e' loc_Exact) as [mrs'' e''].
  destruct (shr_m mrs''); try reflexivity.
  destruct (e'' <=? emax - prec)%Z; reflexivity.
Qed.

Lemma mul_opp_l x y : (- x) * y = - (x * y).
Proof.
  apply Prim2SF_inj. rewrite opp_spec, !mul_spec, opp_spec.
  unfold SF64mul, SFmul.
  destruct (Prim2SF x) as [sx|sx| |sx mx ex],
           (Prim2SF y) as [sy|sy| |sy my ey];
    cbn [SFopp]; rewrite <- ?negb_xorb_l; try reflexivity.
  apply binary_round_aux_opp.
Qed.

Lemma mul_comm x y : x * y = y * x.
Proof.
  apply Prim2SF_inj. rewrite !mul_spec. unfold SF64mul, SFmul.
  destruct (Prim2SF x) as [sx|sx| |sx mx ex],
           (Prim2SF y) as [sy|sy| |sy my ey];
    rewrite ?(xorb_comm sx sy); try reflexivity.
  now rewrite (Pos.mul_comm mx my), (Z.add_comm ex ey).
Qed.

(** Multiplying by [-1] only flips the sign. *)
Lemma mul_m1_r x : x * (-1) = - x.
Proof.
  change (-1) with (- (1)). rewrite mul_comm, mul_opp_l, mul_comm.
  now rewrite mul_1_r.
Qed.

Lemma finite_cases x :
  PrimFloat.is_finite x = true ->
  (exists s, Prim2SF x = S754_zero s)
  \/ (exists s m e, Prim2SF x = S754_finite s m e).
Proof.
  unfold PrimFloat.is_finite, PrimFloat.is_nan, PrimFloat.is_infinity.
  rewrite !eqb_spec, abs_spec.
  change (Prim2SF infinity) with (S754_infinity false).
  destruct (Prim2SF x) as [s|[]| |s m e];
    try (cbn; intros; discriminate); intros _; eauto 10.
Qed.

Lemma positive_cases x :
  (0 <? x) = true ->
  Prim2SF x = S754_infinity false
  \/ exists m e, Prim2SF x = S754_finite false m e.
Proof.
  rewrite ltb_spec. change (Prim2SF 0) with (S754_zero false).
  destruct (Prim2SF x) as [s|s| |s m e]; try destruct s;
    try (cbn; intros; discriminate); intros _; eauto 10.
Qed.

(** A finite Number minus itself is [+0]. *)
Lemma sub_diag x : PrimFloat.is_finite x = true -> x - x = 0.
Proof.
  intros H. apply Prim2SF_inj. rewrite sub_spec.
  change (Prim2SF 0) with (S754_zero false).
  destruct (finite_cases x H) as [[s ->]|(s & m & e & ->)].
  - destruct s; reflexivity.
  - unfold SF64sub, SFsub. rewrite Z.sub_diag. reflexivity.
Qed.


Lemma div_eucl_mul b q : (0 < b)%Z -> Z.div_eucl (b * q) b = (q, 0%Z).
Proof.
  intros Hb.
  assert (H : Z.div_eucl (b * q) b = ((b * q) / b, (b * q) mod b)%Z).
  { unfold Z.div, Z.modulo. destruct (Z.div_eucl (b * q) b). reflexivity. }
  rewrite H. f_equal.
  - rewrite Z.mul_comm. apply Z.div_mul. lia.
  - rewrite Z.mul_comm. apply Z.mod_mul. lia.
Qed.


(** *** Quotients and square roots below one

    [n / k], its square root and the floor of the latter, for Numbers
    [1 <= n < k], from the definitions of the correctly rounded division
    and square root. *)

Section BelowOne.

Local Open Scope Z_scope.

Lemma digits2_pos_size p : digits2_pos p = Pos.size p.
Proof. induction p; simpl; congruence. Qed.

(** A mantissa of [d] binary digits lies in [[2^(d-1), 2^d)]. *)
Lemma digits2_pos_gt p : Z.pos p < 2 ^ Z.pos (digits2_pos p).
Proof.
  rewrite digits2_pos_size. pose proof (Pos.size_gt p) as H.
  rewrite <- Pos2Z.inj_pow. lia.
Qed.

Lemma digits2_pos_le p : 2 ^ Z.pos (digits2_pos p) <= 2 * Z.pos p.
Proof.
  rewrite digits2_pos_size. pose proof (Pos.size_le p) as H.
  rewrite <- Pos2Z.inj_pow. lia.
Qed.

Lemma Zdigits2_le q a : 0 <= q < 2 ^ a -> 0 <= a -> Zdigits2 q <= a.
Proof.
  intros [H0 H] Ha. destruct q as [|p|p]; cbn [Zdigits2]; try lia.
  pose proof (digits2_pos_le p) as Hp.
  assert (H2 : 2 ^ Z.pos (digits2_pos p) < 2 ^ (a + 1)).
  { rewrite Z.pow_add_r, Z.pow_1_r by lia. lia. }
  apply Z.pow_lt_mono_r_iff in H2; lia.
Qed.

Lemma shr_1_m r : 0 <= shr_m r -> shr_m (shr_1 r) = shr_m r / 2.
Proof.
  destruct r as [m b s]; cbn [shr_m]. intros H. rewrite <- Z.div2_div.
  destruct m as [|[p|p|]|p]; try reflexivity; lia.
Qed.

Lemma iter_shr_1_m p r :
  0 <= shr_m r ->
  shr_m (SpecFloat.iter_pos shr_1 p r) = shr_m r / 2 ^ Z.pos p.
Proof.
  revert r. induction p as [|p IH] using Pos.peano_ind; intros r H.
  - cbn [SpecFloat.iter_pos]. rewrite shr_1_m by exact H. reflexivity.
  - rewrite iter_pos_succ, IH, shr_1_m by (rewrite ?shr_1_m by exact H;
      try apply Z.div_pos; lia).
    rewrite Pos2Z.inj_succ, Z.pow_succ_r by lia.
    rewrite Z.div_div by lia. reflexivity.
Qed.

(** Shifting right by [n] places divides the mantissa by [2^n] and adds
    [n] to the exponent. *)
Lemma shr_spec r e n :
  0 <= shr_m r ->
  shr_m (fst (shr r e n)) = shr_m r / 2 ^ Z.max 0 n
  /\ snd (shr r e n) = e + Z.max 0 n.
Proof.
  intros H. destruct n as [|p|p]; cbn [shr fst snd].
  - change (Z.max 0 0) with 0. rewrite Z.pow_0_r, Z.div_1_r. lia.
  - rewrite iter_shr_1_m by exact H.
    replace (Z.max 0 (Z.pos p)) with (Z.pos p) by lia. lia.
  - replace (Z.max 0 (Z.neg p)) with 0 by lia.
    rewrite Z.pow_0_r, Z.div_1_r. lia.
Qed.

Lemma round_nearest_even_bounds m l :
  m <= round_nearest_even m l <= m + 1.
Proof.
  destruct l as [|[]]; cbn [round_nearest_even]; try lia.
  destruct (Z.even m); lia.
Qed.

Lemma shr_record_of_loc_m q l : shr_m (shr_record_of_loc q l) = q.
Proof. destruct l as [|[]]; reflexivity. Qed.

(** Rounding to nearest even cannot reach 1 from a truncated value
    [q * 2^e] below [1 - 2^-53]: the rounded mantissa is at most one unit
    above the truncated one, and a unit is at most [2^-53]. *)
Lemma binary_round_aux_below_one q e l :
  0 <= q -> e <= -53 -> q * 2 ^ 53 < 2 ^ (- e) * (2 ^ 53 - 1) ->
  below_one (binary_round_aux prec emax false q e l).
Proof.
  intros Hq He Hb.
  assert (Hq' : q < 2 ^ (- e)).
  { assert (0 < 2 ^ (- e)) by (apply Z.pow_pos_nonneg; lia). nia. }
  unfold binary_round_aux, shr_fexp.
  set (t := fexp prec emax (Zdigits2 q + e) - e).
  assert (Ht : Z.max 0 t <= - e - 53).
  { pose proof (Zdigits2_le q (- e)).
    unfold t, fexp, SpecFloat.emin, prec, emax. lia. }
  pose proof (shr_spec (shr_record_of_loc q l) e t) as H1.
  rewrite shr_record_of_loc_m in H1. specialize (H1 Hq).
  destruct (shr (shr_record_of_loc q l) e t) as [r1 e1].
  cbn [fst snd] in H1. destruct H1 as [Hr1 He1].
  pose proof (round_nearest_even_bounds (shr_m r1) (loc_of_shr_record r1))
    as Hm1.
  set (m1 := round_nearest_even (shr_m r1) (loc_of_shr_record r1)) in *.
  assert (Hr1' : 0 <= shr_m r1 /\ shr_m r1 + 2 <= 2 ^ (- e1)).
  { rewrite Hr1, He1. set (T := Z.max 0 t) in *.
    assert (HP : 0 < 2 ^ T) by (apply Z.pow_pos_nonneg; lia).
    assert (HB : 0 < 2 ^ (- e - T - 53)) by (apply Z.pow_pos_nonneg; lia).
    assert (HN : 2 ^ (- e) = 2 ^ (- e - T - 53) * 2 ^ 53 * 2 ^ T).
    { rewrite <- !Z.pow_add_r by lia. f_equal. lia. }
    assert (HA : 2 ^ (- (e + T)) = 2 ^ (- e - T - 53) * 2 ^ 53).
    { rewrite <- !Z.pow_add_r by lia. f_equal. lia. }
    rewrite HA. rewrite HN in Hb.
    pose proof (Z.mul_div_le q (2 ^ T) HP) as Hd.
    assert (0 <= q / 2 ^ T) by (apply Z.div_pos; lia).
    split; [assumption|].
    set (B := 2 ^ (- e - T - 53)) in *. set (P := 2 ^ T) in *.
    set (m' := q / P) in *.
    change (2 ^ 53) with 9007199254740992 in *.
    assert (m' * P * 9007199254740992
            < B * 9007199254740991 * (P * 9007199254740992)) by nia.
    assert (m' < B * 9007199254740991) by nia.
    lia. }
  assert (Hm1' : 0 <= m1 < 2 ^ (- e1)) by lia.
  set (t2 := fexp prec emax (Zdigits2 m1 + e1) - e1).
  assert (He1' : e1 <= -53) by lia.
  assert (Ht2 : e1 + Z.max 0 t2 <= -53).
  { pose proof (Zdigits2_le m1 (- e1)).
    unfold t2, fexp, SpecFloat.emin, prec, emax. lia. }
  pose proof (shr_spec (shr_record_of_loc m1 loc_Exact) e1 t2) as H2.
  rewrite shr_record_of_loc_m in H2. specialize (H2 (proj1 Hm1')).
  destruct (shr (shr_record_of_loc m1 loc_Exact) e1 t2) as [r2 e2].
  cbn [fst snd] in H2. destruct H2 as [Hr2 He2].
  assert (Hr2' : 0 <= shr_m r2 < 2 ^ (- e2)).
  { rewrite Hr2, He2. set (T := Z.max 0 t2) in *.
    assert (HP : 0 < 2 ^ T) by (apply Z.pow_pos_nonneg; lia).
    split; [apply Z.div_pos; lia|].
    apply Z.div_lt_upper_bound; [exact HP|].
    rewrite <- Z.pow_add_r by lia.
    replace (T + - (e1 + T)) with (- e1) by lia. lia. }
  destruct (shr_m r2) as [|m|m]; cbn [below_one]; [exact I| |lia].
  unfold prec, emax.
  assert ((e2 <=? 1024 - 53) = true) as -> by (apply Z.leb_le; lia).
  cbn [below_one]. lia.
Qed.

(** The mantissa and exponent of a finite Number are canonical. *)
Lemma valid_finite x s m e :
  Prim2SF x = S754_finite s m e ->
  Z.max (Z.pos (digits2_pos m) + e - 53) (-1074) = e /\ e <= 971.
Proof.
  intros H. pose proof (Prim2SF_valid x) as V. rewrite H in V.
  unfold valid_binary, SpecFloat.valid_binary, bounded, canonical_mantissa,
    fexp, SpecFloat.emin, prec, emax in V.
  apply andb_prop in V. destruct V as [V1 V2].
  apply Z.eqb_eq in V1. apply Z.leb_le in V2. split; [exact V1|lia].
Qed.

Lemma shifted_mantissa m s :
  0 <= s ->
  match s with
  | 0 => m
  | Z.pos _ => Z.shiftl m s
  | Z.neg _ => 0
  end = m * 2 ^ s.
Proof.
  intros H. destruct s as [|p|p]; [cbn; lia| |lia].
  apply Z.shiftl_mul_pow2. lia.
Qed.

(** The one quotient of normal Numbers [n < k] that is [1 - 2^-53]
    exactly: mantissas [2^53 - 1] and [2^52], exponents one apart. *)
Lemma SFdiv_corner e :
  SFdiv prec emax (S754_finite false 9007199254740991 e)
    (S754_finite false 4503599627370496 (e + 1))
  = S754_finite false 9007199254740991 (-53).
Proof.
  unfold SFdiv, SFdiv_core_binary. cbv zeta.
  change (Zdigits2 (Z.pos 9007199254740991)) with 53.
  change (Zdigits2 (Z.pos 4503599627370496)) with 53.
  replace (53 + e - (53 + (e + 1))) with (-1) by lia.
  replace (e - (e + 1)) with (-1) by lia.
  vm_compute. reflexivity.
Qed.

(** The quotient of two positive normal Numbers, the smaller by the
    larger, is below 1. *)
Lemma SFdiv_below_one mn en mk ek :
  Z.pos (digits2_pos mn) = 53 -> Z.pos (digits2_pos mk) = 53 ->
  lex_compare en mn ek mk = Lt ->
  below_one
    (SFdiv prec emax (S754_finite false mn en) (S754_finite false mk ek)).
Proof.
  intros Hn Hk Hlt. apply lex_compare_Lt in Hlt.
  pose proof (digits2_pos_gt mn) as Hn1. pose proof (digits2_pos_le mn) as Hn2.
  pose proof (digits2_pos_gt mk) as Hk1. pose proof (digits2_pos_le mk) as Hk2.
  rewrite Hn in Hn1, Hn2. rewrite Hk in Hk1, Hk2.
  change (2 ^ 53) with 9007199254740992 in Hn1, Hn2, Hk1, Hk2.
  assert (Hkey : (ek = en + 1 /\ mn = 9007199254740991%positive
                  /\ mk = 4503599627370496%positive)
                 \/ Z.pos mn * 2 ^ 53
                    < Z.pos mk * 2 ^ (ek - en) * (2 ^ 53 - 1)).
  { change (2 ^ 53) with 9007199254740992.
    destruct (Z.eq_dec ek en) as [H0|H0].
    - right. subst ek. rewrite Z.sub_diag, Z.pow_0_r. lia.
    - destruct (Z.eq_dec ek (en + 1)) as [H1|H1].
      + subst ek. replace (en + 1 - en) with 1 by lia. rewrite Z.pow_1_r.
        destruct (Pos.eq_dec mn 9007199254740991) as [H2|H2];
          [destruct (Pos.eq_dec mk 4503599627370496) as [H3|H3]|];
          [left; auto|right; lia|right; lia].
      + right.
        assert (HP : 2 ^ 2 <= 2 ^ (ek - en))
          by (apply Z.pow_le_mono_r; lia).
        change (2 ^ 2) with 4 in HP. nia. }
  destruct Hkey as [(-> & -> & ->)|Hkey].
  { rewrite SFdiv_corner. cbn [below_one]. split; [lia|reflexivity]. }
  unfold SFdiv, SFdiv_core_binary. cbn [Zdigits2]. rewrite Hn, Hk.
  cbv zeta.
  set (e' := Z.min (fexp prec emax (53 + en - (53 + ek))) (en - ek)).
  assert (He' : e' <= -53 /\ e' <= en - ek).
  { unfold e', fexp, SpecFloat.emin, prec, emax. lia. }
  rewrite shifted_mantissa by lia.
  set (s := en - ek - e') in *.
  pose proof (Z_div_mod (Z.pos mn * 2 ^ s) (Z.pos mk) eq_refl) as Hd.
  destruct (Z.div_eucl (Z.pos mn * 2 ^ s) (Z.pos mk)) as [q r].
  destruct Hd as [Hd Hr].
  assert (HS : 0 < 2 ^ s) by (apply Z.pow_pos_nonneg; lia).
  assert (HD : 0 < 2 ^ (ek - en)) by (apply Z.pow_pos_nonneg; lia).
  assert (HN : 2 ^ (- e') = 2 ^ s * 2 ^ (ek - en)).
  { rewrite <- Z.pow_add_r by lia. f_equal. lia. }
  apply binary_round_aux_below_one; [nia|lia|].
  rewrite HN.
  set (P := 2 ^ s) in *. set (D := 2 ^ (ek - en)) in *.
  change (2 ^ 53) with 9007199254740992 in *.
  assert (q * Z.pos mk <= Z.pos mn * P) by lia.
  assert (Z.pos mn * 9007199254740992 * P
          < Z.pos mk * D * 9007199254740991 * P) by nia.
  nia.
Qed.

Lemma div_below_one n k :
  (1 <=? n)%float = true -> (n <? k)%float = true ->
  below_one (Prim2SF (n / k)).
Proof.
  rewrite leb_spec, ltb_spec, div_spec. unfold SFleb, SFltb, SF64div.
  change (Prim2SF 1) with (S754_finite false 4503599627370496 (-52)).
  pose proof (valid_finite n) as Vn. pose proof (valid_finite k) as Vk.
  destruct (Prim2SF n) as [sn|sn| |sn mn en].
  - cbn [SFcompare]. intros H; discriminate H.
  - cbn [SFcompare]. destruct sn; [intros H; discriminate H|]. intros _.
    destruct (Prim2SF k) as [sk|sk| |sk mk ek];
      try destruct sk; intros H; discriminate H.
  - cbn [SFcompare]. intros H; discriminate H.
  - specialize (Vn _ _ _ eq_refl).
    rewrite SFcompare_finite. destruct sn; [intros H; discriminate H|].
    intros H1.
    assert (Hn : -52 <= en).
    { destruct (lex_compare (-52) 4503599627370496 en mn) eqn:H;
        try discriminate H1;
        [apply lex_compare_Eq in H|apply lex_compare_Lt in H]; lia. }
    clear H1.
    destruct (Prim2SF k) as [sk|sk| |sk mk ek].
    + cbn [SFcompare]. intros H; discriminate H.
    + cbn [SFcompare]. destruct sk; [intros H; discriminate H|].
      intros _. exact I.
    + cbn [SFcompare]. intros H; discriminate H.
    + specialize (Vk _ _ _ eq_refl).
      rewrite SFcompare_finite. destruct sk; [intros H; discriminate H|].
      destruct (lex_compare en mn ek mk) eqn:H2;
        try (intros H; discriminate H).
      intros _. pose proof H2 as H3. apply lex_compare_Lt in H3.
      apply SFdiv_below_one; try exact H2; lia.
Qed.

(** The square root of a Number below 1 is below 1.  At [1 - 2^-53], the
    largest Number below 1, the root is computed; everywhere else the
    truncated root is below [1 - 2^-53]. *)
Lemma SFsqrt_below_one mx ex :
  Z.max (Z.pos (digits2_pos mx) + ex - 53) (-1074) = ex ->
  ex < 0 -> Z.pos mx < 2 ^ (- ex) ->
  below_one (SFsqrt prec emax (S754_finite false mx ex)).
Proof.
  intros Hc He Hm.
  destruct (Z.eq_dec ex (-53)) as [E53|E53];
    [destruct (Pos.eq_dec mx 9007199254740991) as [Emx|Emx]|].
  { subst. vm_compute. split; reflexivity. }
  all: pose proof (digits2_pos_gt mx) as H1;
    pose proof (digits2_pos_le mx) as H2;
    unfold SFsqrt, SFsqrt_core_binary; cbn [Zdigits2];
    set (d := Z.pos (digits2_pos mx)) in *;
    assert (Hd : 0 < d <= 53) by lia;
    assert (Hmx : Z.pos mx < 2 ^ 53)
      by (pose proof (Z.pow_le_mono_r 2 d 53); lia);
    assert (Hde : d + ex <= 0)
      by (assert (H3 : 2 ^ d < 2 ^ (1 - ex))
            by (replace (1 - ex) with (- ex + 1) by lia;
                rewrite Z.pow_add_r, Z.pow_1_r by lia; lia);
          apply Z.pow_lt_mono_r_iff in H3; lia);
    cbv zeta; rewrite !Z.div2_div;
    set (e' := Z.min (fexp prec emax ((d + ex + 1) / 2)) (ex / 2));
    assert (He' : e' <= -53 /\ 2 * e' <= ex)
      by (unfold e', fexp, SpecFloat.emin, prec, emax;
          Z.div_mod_to_equations; lia);
    rewrite shifted_mantissa by lia;
    set (s := ex - 2 * e') in *;
    assert (HS : 0 < 2 ^ s) by (apply Z.pow_pos_nonneg; lia);
    pose proof (Z.sqrtrem_spec (Z.pos mx * 2 ^ s) ltac:(lia)) as Hq;
    destruct (Z.sqrtrem (Z.pos mx * 2 ^ s)) as [q r];
    destruct Hq as [Hq Hr];
    apply binary_round_aux_below_one; [lia|lia|].
  - assert (e' = -53) as ->
      by (unfold e', fexp, SpecFloat.emin, prec, emax;
          Z.div_mod_to_equations; lia).
    assert (s = 53) as Hs by (unfold s; lia). rewrite Hs in *.
    change (- -53) with 53. change (2 ^ 53) with 9007199254740992 in *.
    assert (Z.pos mx <= 9007199254740990) by lia.
    nia.
  - assert (Hex : ex <= -54) by lia.
    assert (HN : 0 < 2 ^ (- e')) by (apply Z.pow_pos_nonneg; lia).
    assert (HNN : 2 ^ (- e') * 2 ^ (- e') = 2 ^ s * 2 ^ (- ex)).
    { rewrite <- !Z.pow_add_r by lia. f_equal. unfold s. lia. }
    assert (HE : 2 ^ 54 <= 2 ^ (- ex)) by (apply Z.pow_le_mono_r; lia).
    set (N := 2 ^ (- e')) in *. set (S := 2 ^ s) in *.
    set (X := 2 ^ (- ex)) in *.
    change (2 ^ 54) with 18014398509481984 in HE.
    change (2 ^ 53) with 9007199254740992 in *.
    assert (H3 : Z.pos mx * S < 9007199254740992 * S) by nia.
    assert (H4 : 18014398509481984 * S <= X * S) by nia.
    assert (H5 : 2 * (q * q) < N * N) by lia.
    destruct (Z.lt_ge_cases (q * 9007199254740992)
                (N * (9007199254740992 - 1))) as [H6|H6];
      [exact H6|exfalso].
    assert (H7 : N * (9007199254740992 - 1) * (N * (9007199254740992 - 1))
                 <= q * 9007199254740992 * (q * 9007199254740992))
      by (apply Z.square_le_mono_nonneg; lia).
    replace (N * (9007199254740992 - 1) * (N * (9007199254740992 - 1)))
      with (N * N * ((9007199254740992 - 1) * (9007199254740992 - 1)))
      in H7 by ring.
    replace (q * 9007199254740992 * (q * 9007199254740992))
      with (q * q * (9007199254740992 * 9007199254740992)) in H7 by ring.
    assert (0 <= q * q) by nia.
    lia.
Qed.

Lemma sqrt_below_one x :
  below_one (Prim2SF x) -> below_one (Prim2SF (PrimFloat.sqrt x)).
Proof.
  rewrite sqrt_spec. unfold SF64sqrt. pose proof (valid_finite x) as V.
  destruct (Prim2SF x) as [s|s| |s m e]; cbn [below_one].
  - destruct s; [intros []|]. intros _. exact I.
  - intros [].
  - intros [].
  - destruct s; [intros []|]. intros [He Hm].
    apply SFsqrt_below_one; [|exact He|exact Hm].
    exact (proj1 (V _ _ _ eq_refl)).
Qed.

(** [Math.floor] of a Number in [[+0, 1)] is [+0]. *)
Lemma Math_floor_below_one x :
  below_one (Prim2SF x) -> Math_floor x = 0%float.
Proof.
  unfold Math_floor.
  destruct (Prim2SF x) as [s|s| |s m e] eqn:Hx; cbn [below_one].
  - destruct s; [intros []|]. intros _. apply Prim2SF_inj.
    rewrite Hx. reflexivity.
  - intros [].
  - intros [].
  - destruct s; [intros []|]. intros [He Hm].
    assert ((0 <=? e) = false) as -> by (apply Z.leb_gt; lia).
    cbn [cond_Zopp]. rewrite Z.shiftr_div_pow2 by lia.
    rewrite Z.div_small by lia. reflexivity.
Qed.

(** For Numbers [1 <= n < k] the inner distance is 0. *)
Lemma inner_distance_zero_binary64 n k :
  (1 <=? n)%float = true -> (n <? k)%float = true ->
  Math_floor (Math_sqrt (n / k)) = 0%float.
Proof.
  intros Hn Hk. apply Math_floor_below_one. unfold Math_sqrt.
  apply sqrt_below_one. apply div_below_one; assumption.
Qed.

End BelowOne.

(** *** The code library *)

Lemma registered_model {E : MathEngine} code m :
  codeLibrary code = Some m ->
  m = surface \/ m = yoked_1d \/ m = yoked_2d \/ m = color
  \/ m = hypergraph \/ m = lifted.
Proof.
  unfold codeLibrary. intros H.
  repeat match type of H with
  | (if ?b then _ else _) = _ => destruct b
  end; try discriminate; injection H as <-; auto 10.
Qed.

Lemma square_engine_exact : exact_squares square_engine.
Proof. intros x _ _. reflexivity. Qed.

(** C1. For each of the six registered identifiers, [codeLibrary] and the
    table of section 4.1 both have an entry, the entry's [threshold] is the
    table's [p_th] to the bit, and on every input [calculateParams] returns
    the [d], the [n_ancilla] (scaled by 1.0, 1.2 or 1.5) and the [epsilon_L]
    of the reference definition. *)
Theorem calculateParams_matches_reference (E : MathEngine) :
  Forall
    (fun id =>
       exists (m : CodeModel) (entry : Reference.Entry),
         codeLibrary id = Some m
         /\ Reference.table id = Some entry
         /\ threshold m = Reference.p_th entry
         /\ forall p n k target,
              let result :=
                calculateParams m
                  {| params_p := p; params_n := n; params_k := k;
                     params_epsilon_L := target |} in
              let reference := Reference.evaluate entry p n k in
              result_d result = Reference.d reference
              /\ result_n_ancilla result = Reference.n_ancilla reference
              /\ result_epsilon_L result = Reference.epsilon_L reference)
    registered.
Proof.
  unfold registered.
  repeat (apply Forall_cons || apply Forall_nil);
    eexists; eexists; (split; [reflexivity|]); (split; [reflexivity|]);
    (split; [reflexivity|]); intros p n k target;
    unfold Reference.evaluate;
    cbn [Reference.law Reference.p_th Reference.d Reference.n_ancilla
         Reference.epsilon_L calculateParams surface yoked_1d yoked_2d color
         hypergraph lifted params_p params_n params_k result_d
         result_n_ancilla result_epsilon_L];
    rewrite ?mul_1_r; repeat split.
Qed.

(** C2. With an engine whose [Math.pow] squares small integers exactly,
    [calculateParams] of the surface code at [p = 0.001], [n = 1000],
    [k = 1] gives [d = 31], [n_ancilla = 960] and
    [epsilon_L = 0.03 * Math.pow(0.001 / 0.011, 15.5)], and at [n = 9] it
    gives [d = 3] and [n_ancilla = 8]. *)
Theorem surface_test_vectors (E : MathEngine) (target : float) :
  exact_squares E ->
  let r1 :=
    calculateParams surface
      {| params_p := 0.001; params_n := 1000; params_k := 1;
         params_epsilon_L := target |} in
  let r2 :=
    calculateParams surface
      {| params_p := 0.001; params_n := 9; params_k := 1;
         params_epsilon_L := target |} in
  result_d r1 = Some 31
  /\ result_n_ancilla r1 = Some 960
  /\ result_epsilon_L r1 = 0.03 * Math_pow (0.001 / 0.011) 15.5
  /\ result_d r2 = Some 3
  /\ result_n_ancilla r2 = Some 8.
Proof.
  intros HE r1 r2.
  assert (H30 : pow_approx 30 2 = 900) by (rewrite HE; reflexivity).
  assert (H2 : pow_approx 2 2 = 4) by (rewrite HE; reflexivity).
  subst r1 r2. destruct E as [pw lg]. cbn [pow_approx] in H30, H2.
  vm_compute. rewrite H30, H2. vm_compute. repeat split.
Qed.

Lemma surface_test_vectors_witness :
  exact_squares square_engine
  /\ result_d
       (@calculateParams (@surface square_engine)
          {| params_p := 0.001; params_n := 1000; params_k := 1;
             params_epsilon_L := 1e-6 |}) = Some 31
  /\ result_n_ancilla
       (@calculateParams (@surface square_engine)
          {| params_p := 0.001; params_n := 1000; params_k := 1;
             params_epsilon_L := 1e-6 |}) = Some 960.
Proof.
  split; [exact square_engine_exact|].
  pose proof (surface_test_vectors square_engine 1e-6 square_engine_exact)
    as (Hd & Ha & _).
  split; [exact Hd | exact Ha].
Defined.

(** C3. For a registered code and [p >= threshold], [findRequiredN] returns
    [null], whatever the target and [k] are. *)
Theorem no_solution_at_or_above_threshold (E : MathEngine) (code : string)
  (m : CodeModel) (p target k : float) :
  codeLibrary code = Some m ->
  (threshold m <=? p) = true ->
  findRequiredN code p target k = None.
Proof.
  intros Hm Hp. unfold findRequiredN. now rewrite Hm, Hp.
Qed.

Lemma no_solution_at_or_above_threshold_witness :
  @codeLibrary square_engine "surface" = Some (@surface square_engine)
  /\ (threshold (@surface square_engine) <=? 0.011) = true
  /\ @findRequiredN square_engine "surface" 0.011 1e-6 1 = None.
Proof.
  split; [reflexivity|]. split; [reflexivity|].
  exact (no_solution_at_or_above_threshold square_engine "surface"
           (@surface square_engine) 0.011 1e-6 1 eq_refl eq_refl).
Defined.

(** *** The two searches *)

Section Searches.

Context {E : MathEngine}.

Variables (m : CodeModel) (p k target : float).

Lemma bestResult_bisect st :
  bestResult (bisect m p k target st)
  = if log_distance target (evaluated m p k target st) <? minDiff st
    then Some (evaluated m p k target st) else bestResult st.
Proof.
  unfold bisect.
  destruct (target <? result_epsilon_L (evaluated m p k target st));
    reflexivity.
Qed.

Lemma minDiff_bisect st :
  minDiff (bisect m p k target st)
  = if log_distance target (evaluated m p k target st) <? minDiff st
    then log_distance target (evaluated m p k target st) else minDiff st.
Proof.
  unfold bisect.
  destruct (target <? result_epsilon_L (evaluated m p k target st));
    reflexivity.
Qed.

Lemma retains_start nMin0 nMax0 :
  retains target []
    {| nMin := nMin0; nMax := nMax0; minDiff := infinity;
       bestResult := None |}.
Proof. split; [reflexivity | intros r' []]. Qed.

(** One pass of the loop body keeps the invariant. *)
Lemma retains_bisect results st :
  retains target results st ->
  retains target (results ++ [evaluated m p k target st])
    (bisect m p k target st).
Proof.
  intros [Hbest Hmin]. unfold retains.
  rewrite bestResult_bisect, minDiff_bisect.
  set (r := evaluated m p k target st) in *.
  destruct (log_distance target r <? minDiff st) eqn:Hlt.
  - split.
    + split; [apply in_or_app; right; now left|]. split; [reflexivity|].
      destruct (bestResult st) as [r0|].
      * destruct Hbest as (_ & _ & Hfin). exact (ltb_trans _ _ _ Hlt Hfin).
      * now rewrite <- Hbest.
    + intros r' Hr'. apply in_app_or in Hr' as [Hr'|[<-|[]]].
      * destruct (log_distance target r' <? log_distance target r) eqn:Hr;
          [|reflexivity].
        rewrite <- (Hmin r' Hr'). symmetry. exact (ltb_trans _ _ _ Hr Hlt).
      * apply ltb_irrefl.
  - split.
    + destruct (bestResult st) as [r0|]; [|exact Hbest].
      destruct Hbest as (Hin & Hd & Hfin). repeat split; auto.
      apply in_or_app. now left.
    + intros r' Hr'. apply in_app_or in Hr' as [Hr'|[<-|[]]]; auto.
Qed.

Lemma retains_best_seen results st :
  retains target results st -> best_seen target results (bestResult st).
Proof.
  intros [Hbest Hmin]. unfold best_seen.
  destruct (bestResult st) as [r|].
  - destruct Hbest as (Hin & Hd & Hfin). rewrite <- Hd. auto.
  - rewrite <- Hbest. exact Hmin.
Qed.

Lemma iterate_retains budget : forall results st,
  retains target results st ->
  retains target (results ++ evaluations budget m p k target st)
    (iterate budget (bisect m p k target) st).
Proof.
  induction budget as [|budget IH]; intros results st H; simpl.
  - now rewrite app_nil_r.
  - replace (results ++ evaluated m p k target st
               :: evaluations budget m p k target (bisect m p k target st))
      with ((results ++ [evaluated m p k target st])
              ++ evaluations budget m p k target (bisect m p k target st))
      by (now rewrite <- app_assoc).
    apply IH. now apply retains_bisect.
Qed.

Lemma plotSearch_retains budget : forall results st n,
  retains target results st ->
  retains target (results ++ plotEvaluations budget m p k target st)
    (fst (plotSearch budget m p k target st n)).
Proof.
  induction budget as [|budget IH]; intros results st n H; simpl.
  - now rewrite app_nil_r.
  - destruct (1e9 <? nMin (bisect m p k target st)).
    + now apply retains_bisect.
    + replace (results ++ evaluated m p k target st
                 :: plotEvaluations budget m p k target
                      (bisect m p k target st))
        with ((results ++ [evaluated m p k target st])
                ++ plotEvaluations budget m p k target
                     (bisect m p k target st))
        by (now rewrite <- app_assoc).
      apply IH. now apply retains_bisect.
Qed.

Lemma evaluations_length budget : forall st,
  List.length (evaluations budget m p k target st) = budget.
Proof.
  induction budget as [|budget IH]; intros st; simpl; [reflexivity|].
  now rewrite IH.
Qed.

Lemma plotEvaluations_length budget : forall st,
  (List.length (plotEvaluations budget m p k target st) <= budget)%nat.
Proof.
  induction budget as [|budget IH]; intros st; simpl; [lia|].
  destruct (1e9 <? nMin (bisect m p k target st)); simpl; [lia|].
  specialize (IH (bisect m p k target st)). lia.
Qed.

(** The inner loop of [generatePlotData] ends before its budget only
    through its [break]. *)
Lemma plotSearch_early budget : forall st n,
  (List.length (plotEvaluations budget m p k target st) < budget)%nat ->
  (1e9 <? nMin (fst (plotSearch budget m p k target st n))) = true.
Proof.
  induction budget as [|budget IH]; intros st n; simpl; [lia|].
  destruct (1e9 <? nMin (bisect m p k target st)) eqn:Hb; simpl.
  - intros _. exact Hb.
  - intros H. apply IH. lia.
Qed.

Lemma findRequiredN_best_seen budget :
  best_seen target (evaluations budget m p k target findRequiredN_start)
    (bestResult (iterate budget (bisect m p k target) findRequiredN_start)).
Proof.
  apply retains_best_seen.
  pose proof (iterate_retains budget [] findRequiredN_start
                (retains_start _ _)) as H.
  now rewrite app_nil_l in H.
Qed.

Lemma plotSearch_best_seen budget n :
  best_seen target (plotEvaluations budget m p k target plotSearch_start)
    (bestResult (fst (plotSearch budget m p k target plotSearch_start n))).
Proof.
  apply retains_best_seen.
  pose proof (plotSearch_retains budget [] plotSearch_start n
                (retains_start _ _)) as H.
  now rewrite app_nil_l in H.
Qed.

Lemma plotEvaluations_S budget st :
  plotEvaluations (S budget) m p k target st
  = evaluated m p k target st
    :: (if 1e9 <? nMin (bisect m p k target st) then []
        else plotEvaluations budget m p k target (bisect m p k target st)).
Proof. reflexivity. Qed.

Lemma plotSearch_S budget st n :
  plotSearch (S budget) m p k target st n
  = if 1e9 <? nMin (bisect m p k target st)
    then (bisect m p k target st, midpoint st)
    else plotSearch budget m p k target (bisect m p k target st)
           (midpoint st).
Proof. reflexivity. Qed.

Lemma plotPoint_spec :
  plotPoint m p k target
  = match bestResult (fst (plotSearch 30 m p k target plotSearch_start 10))
    with
    | Some best =>
        if 1e9 <? result_n best then None else Some (result_n best)
    | None => Some (snd (plotSearch 30 m p k target plotSearch_start 10))
    end.
Proof.
  unfold plotPoint.
  destruct (plotSearch 30 m p k target plotSearch_start 10) as [st n].
  reflexivity.
Qed.

End Searches.

(** With [k = 1e11] the first midpoint of the curve search, 5000000005, is
    below [k]: the distance is 0, the exponent is 0, [Math.pow] returns 1 and
    [epsilon_L] is [0.03 * k], whatever the engine. *)
Lemma first_pass_epsilon (E : MathEngine) (target : float) :
  result_epsilon_L (evaluated surface 0.001 1e11 target plotSearch_start)
  = 3000000000.
Proof. destruct E. reflexivity. Qed.

Lemma first_pass_nMin (E : MathEngine) (target : float) :
  (target <? 3000000000) = true ->
  nMin (bisect surface 0.001 1e11 target plotSearch_start) = 5000000005.
Proof.
  intros Ht. unfold bisect. rewrite first_pass_epsilon, Ht. reflexivity.
Qed.



(** C4, as amended.  Below threshold, [findRequiredN] makes exactly 20
    evaluations and the curve search at most 30, fewer only when it leaves
    through [nMin > 1e9]; what each retains is the result of one of its
    evaluations whose log-distance to the target is below [Infinity] and is
    undercut by no evaluation, or nothing ([null]) when no log-distance is
    below [Infinity]. *)
Theorem search_keeps_best_seen (E : MathEngine) (code : string)
  (m : CodeModel) (p target k : float) :
  codeLibrary code = Some m ->
  (p <? threshold m) = true ->
  List.length (evaluations 20 m p k target findRequiredN_start) = 20%nat
  /\ best_seen target (evaluations 20 m p k target findRequiredN_start)
       (findRequiredN code p target k)
  /\ (List.length (plotEvaluations 30 m p k target plotSearch_start)
      <= 30)%nat
  /\ ((List.length (plotEvaluations 30 m p k target plotSearch_start)
       < 30)%nat ->
      (1e9 <? nMin (fst (plotSearch 30 m p k target plotSearch_start 10)))
      = true)
  /\ best_seen target (plotEvaluations 30 m p k target plotSearch_start)
       (bestResult (fst (plotSearch 30 m p k target plotSearch_start 10))).
Proof.
  intros Hm Hp. split; [exact (evaluations_length m p k target 20 _)|].
  split.
  - unfold findRequiredN. rewrite Hm, (ltb_not_leb _ _ Hp).
    exact (findRequiredN_best_seen m p k target 20).
  - split; [exact (plotEvaluations_length m p k target 30 _)|].
    split; [exact (plotSearch_early m p k target 30 _ _)|].
    exact (plotSearch_best_seen m p k target 30 10).
Qed.

Lemma search_keeps_best_seen_witness :
  @codeLibrary square_engine "surface" = Some (@surface square_engine)
  /\ (0.001 <? threshold (@surface square_engine)) = true
  /\ List.length
       (@evaluations square_engine 20 (@surface square_engine) 0.001 1 1e-6
          findRequiredN_start) = 20%nat
  /\ @best_seen square_engine 1e-6
       (@evaluations square_engine 20 (@surface square_engine) 0.001 1 1e-6
          findRequiredN_start)
       (@findRequiredN square_engine "surface" 0.001 1e-6 1).
Proof.
  split; [reflexivity|]. split; [reflexivity|].
  pose proof (search_keeps_best_seen square_engine "surface"
                (@surface square_engine) 0.001 1e-6 1 eq_refl eq_refl)
    as (Hlen & Hbest & _).
  split; [exact Hlen | exact Hbest].
Defined.

(** C4, counterexample.  The surface code, [p = 0.001] (below the threshold
    0.011), [k = 1e11] and the target 1e-6: the curve search evaluates one
    midpoint, not 30, on every engine. The first midpoint is 5000000005, its
    [epsilon_L] is 3e9, above the target, so [nMin] becomes 5000000005, which
    exceeds 1e9, and the loop is left. *)
Lemma curve_search_stops_early :
  exists steps : nat,
    steps <> 30%nat
    /\ forall E : MathEngine,
         (0.001 <? threshold (@surface E)) = true
         /\ List.length
              (@plotEvaluations E 30 (@surface E) 0.001 1e11 1e-6
                 plotSearch_start) = steps.
Proof.
  exists 1%nat. split; [discriminate|]. intros E. split; [reflexivity|].
  change 30%nat with (S 29). rewrite plotEvaluations_S.
  rewrite first_pass_nMin by reflexivity. reflexivity.
Qed.




(** *** No validation in the evaluator *)

Lemma epsilon_nan_of_n_nan {E : MathEngine} m p k target :
  m = surface \/ m = yoked_1d \/ m = yoked_2d \/ m = color
  \/ m = hypergraph \/ m = lifted ->
  result_epsilon_L
    (calculateParams m
       {| params_p := p; params_n := nan; params_k := k;
          params_epsilon_L := target |}) = nan.
Proof.
  intros [->|[->|[->|[->|[->| ->]]]]];
    cbn [calculateParams surface yoked_1d yoked_2d color hypergraph lifted
         result_epsilon_L params_p params_n params_k];
    rewrite ?div_nan_l.
  - change (Math_floor (Math_sqrt nan) / 2) with nan.
    change (Math_pow (p / 0.011) nan) with nan. apply mul_nan_r.
  - change (Math_ceil (Math_floor (1.8 * Math_floor (Math_sqrt nan)) / 2))
      with nan.
    change (Math_pow (p / 0.011) nan) with nan. apply mul_nan_r.
  - change (Math_ceil (Math_floor (3.2 * Math_floor (Math_sqrt nan)) / 2))
      with nan.
    change (Math_pow (p / 0.011) nan) with nan. apply mul_nan_r.
  - change (Math_ceil (Math_floor (Math_sqrt nan) / 2)) with nan.
    change (Math_pow (p / 0.0036) nan) with nan. apply mul_nan_r.
  - change (0.47 * Math_pow nan 0.27) with nan.
    change (Math_pow (p / 0.006) nan) with nan. reflexivity.
  - change (0.11 * Math_pow nan 0.60) with nan.
    change (Math_pow (p / 0.0066) nan) with nan. reflexivity.
Qed.

(** C9, as amended.  The evaluator validates nothing and has no
    InvalidParameter value: for a registered code, [calculateResults] hands
    every input to [calculateParams] and stores the Result, and a NaN [n]
    comes back as a NaN [epsilon_L]. *)
Theorem evaluate_does_not_validate (E : MathEngine) (code : string)
  (m : CodeModel) (params : Params) :
  codeLibrary code = Some m ->
  calculateResults code params = SetResults (calculateParams m params)
  /\ (PrimFloat.is_nan (params_n params) = true ->
      PrimFloat.is_nan (result_epsilon_L (calculateParams m params)) = true).
Proof.
  intros Hm. split.
  - unfold calculateResults. now rewrite Hm.
  - intros Hn. apply is_nan_eq in Hn. destruct params as [p n k target].
    cbn [params_n] in Hn. subst n.
    rewrite (epsilon_nan_of_n_nan m p k target (registered_model code m Hm)).
    reflexivity.
Qed.

Lemma evaluate_does_not_validate_witness :
  @codeLibrary square_engine "surface" = Some (@surface square_engine)
  /\ @calculateResults square_engine "surface"
       {| params_p := 0.001; params_n := nan; params_k := 1;
          params_epsilon_L := 1e-6 |}
     = SetResults
         (@calculateParams (@surface square_engine)
            {| params_p := 0.001; params_n := nan; params_k := 1;
               params_epsilon_L := 1e-6 |}).
Proof.
  split; [reflexivity|].
  exact (proj1 (evaluate_does_not_validate square_engine "surface"
                  (@surface square_engine)
                  {| params_p := 0.001; params_n := nan; params_k := 1;
                     params_epsilon_L := 1e-6 |}
                  eq_refl)).
Defined.

(** C9, counterexample.  [p = NaN] with [n = 1000], [k = 1] for the surface
    code: on every engine [calculateResults] stores a Result, and its
    [epsilon_L] is NaN. *)
Lemma nan_is_not_rejected :
  exists params : Params,
    PrimFloat.is_nan (params_p params) = true
    /\ forall E : MathEngine,
         exists r : Result,
           @calculateResults E "surface" params = SetResults r
           /\ PrimFloat.is_nan (result_epsilon_L r) = true.
Proof.
  exists {| params_p := nan; params_n := 1000; params_k := 1;
            params_epsilon_L := 1e-6 |}.
  split; [reflexivity|]. intros E. eexists. split; [reflexivity|].
  destruct E. reflexivity.
Qed.

(** *** Sampling guard, log-scale end points and degenerate distance *)





(** Whenever the inner distance evaluates to [+0], the returned distance is
    0 and the ancilla count is [-k], [-(1.2 k)] or [-(1.5 k)]. *)
Lemma zero_inner_distance (E : MathEngine) (p n k target : float) :
  exact_squares E ->
  Math_floor (Math_sqrt (n / k)) = 0 ->
  let params :=
    {| params_p := p; params_n := n; params_k := k;
       params_epsilon_L := target |} in
  (result_d (calculateParams surface params) = Some 0
   /\ result_n_ancilla (calculateParams surface params) = Some (- k))
  /\ (result_d (calculateParams color params) = Some 0
      /\ result_n_ancilla (calculateParams color params) = Some (- k))
  /\ (result_d (calculateParams yoked_1d params) = Some 0
      /\ result_n_ancilla (calculateParams yoked_1d params)
         = Some (- (1.2 * k)))
  /\ (result_d (calculateParams yoked_2d params) = Some 0
      /\ result_n_ancilla (calculateParams yoked_2d params)
         = Some (- (1.5 * k))).
Proof.
  intros HE Hd params.
  assert (H1 : Math_pow (0 - 1) 2 + 2 * (0 - 1) = -1).
  { assert (Hp : Math_pow (0 - 1) 2 = pow_approx (-1) 2)
      by (destruct E; reflexivity).
    rewrite Hp, HE by reflexivity. reflexivity. }
  subst params.
  cbn [calculateParams surface color yoked_1d yoked_2d result_d
       result_n_ancilla params_n params_k].
  rewrite Hd, H1, mul_m1_r, !mul_opp_l, (mul_comm k 1.2), (mul_comm k 1.5).
  repeat split.
Qed.

(** For Numbers [1 <= n < k] the four distance-based codes return distance
    0 and a negative ancilla count. *)
Lemma degenerate_distance_binary64 (E : MathEngine) (p n k target : float) :
  exact_squares E ->
  (1 <=? n) = true -> (n <? k) = true ->
  let params :=
    {| params_p := p; params_n := n; params_k := k;
       params_epsilon_L := target |} in
  (result_d (calculateParams surface params) = Some 0
   /\ result_n_ancilla (calculateParams surface params) = Some (- k))
  /\ (result_d (calculateParams color params) = Some 0
      /\ result_n_ancilla (calculateParams color params) = Some (- k))
  /\ (result_d (calculateParams yoked_1d params) = Some 0
      /\ result_n_ancilla (calculateParams yoked_1d params)
         = Some (- (1.2 * k)))
  /\ (result_d (calculateParams yoked_2d params) = Some 0
      /\ result_n_ancilla (calculateParams yoked_2d params)
         = Some (- (1.5 * k))).
Proof.
  intros HE Hn Hk. apply zero_inner_distance; [exact HE|].
  apply inner_distance_zero_binary64; assumption.
Qed.

(** *** Integers in binary64

    The two searches compute with integers well below [2^53]; on those,
    addition, halving and [Math.floor] are exact. *)

Section Integers.

Local Open Scope Z_scope.

Lemma iter_xO_pow2 m k : Z.pos (Pos.iter xO m k) = Z.pos m * 2 ^ Z.pos k.
Proof.
  induction k as [|k IH] using Pos.peano_ind.
  - cbn [Pos.iter]. lia.
  - rewrite Pos.iter_succ, Pos2Z.inj_xO, IH, Pos2Z.inj_succ, Z.pow_succ_r
      by lia.
    ring.
Qed.

Lemma pos_of_pow2 m M k :
  Z.pos m = Z.pos M * 2 ^ Z.pos k -> m = Pos.iter xO M k.
Proof.
  intros H. apply Pos2Z.inj. now rewrite iter_xO_pow2.
Qed.

(** The number of digits is determined by the two bounds. *)
Lemma digits2_pos_unique p d :
  2 ^ (d - 1) <= Z.pos p < 2 ^ d -> Z.pos (digits2_pos p) = d.
Proof.
  intros [H1 H2].
  pose proof (digits2_pos_gt p) as G. pose proof (digits2_pos_le p) as L.
  assert (Hd : 0 < d).
  { destruct (Z.lt_ge_cases 0 d) as [|Hd]; [assumption|].
    destruct (Z.eq_dec d 0) as [->|]; [simpl in H2; lia|].
    rewrite Z.pow_neg_r in H2 by lia. lia. }
  assert (A : 2 ^ (d - 1) < 2 ^ Z.pos (digits2_pos p)) by lia.
  apply Z.pow_lt_mono_r_iff in A; [|lia|lia].
  assert (B : 2 ^ Z.pos (digits2_pos p) < 2 ^ (d + 1)).
  { rewrite Z.pow_add_r, Z.pow_1_r by lia. lia. }
  apply Z.pow_lt_mono_r_iff in B; lia.
Qed.

Lemma digits2_pos_shift m M k :
  0 <= k -> Z.pos m = Z.pos M * 2 ^ k ->
  Z.pos (digits2_pos m) = Z.pos (digits2_pos M) + k.
Proof.
  intros Hk H. apply digits2_pos_unique. rewrite H.
  pose proof (digits2_pos_gt M) as G. pose proof (digits2_pos_le M) as L.
  assert (P : 0 < 2 ^ k) by (apply Z.pow_pos_nonneg; lia).
  replace (Z.pos (digits2_pos M) + k - 1)
    with ((Z.pos (digits2_pos M) - 1) + k) by lia.
  rewrite !Z.pow_add_r by lia.
  assert (L' : 2 ^ (Z.pos (digits2_pos M) - 1) <= Z.pos M).
  { assert (2 * 2 ^ (Z.pos (digits2_pos M) - 1) = 2 ^ Z.pos (digits2_pos M)).
    { rewrite <- Z.pow_succ_r by lia. f_equal. lia. }
    lia. }
  split; nia.
Qed.

(** Rounding a value that a canonical mantissa and exponent represent
    returns that mantissa and exponent. *)
Lemma binary_round_aux_exact s M E k :
  fexp prec emax (Z.pos (digits2_pos M) + E) = E -> E <= emax - prec ->
  0 <= k ->
  binary_round_aux prec emax s (Z.pos M * 2 ^ k) (E - k) loc_Exact
  = S754_finite s M E.
Proof.
  intros Hc Hb Hk.
  assert (Hm : exists m, Z.pos m = Z.pos M * 2 ^ k).
  { assert (0 < Z.pos M * 2 ^ k)
      by (apply Z.mul_pos_pos; [lia|apply Z.pow_pos_nonneg; lia]).
    destruct (Z.pos M * 2 ^ k) as [|m|m]; try lia. now exists m. }
  destruct Hm as [m Hm]. rewrite <- Hm.
  pose proof (digits2_pos_shift m M k Hk Hm) as Hd.
  unfold binary_round_aux.
  unfold shr_fexp at 1. cbn [Zdigits2]. rewrite Hd.
  replace (Z.pos (digits2_pos M) + k + (E - k))
    with (Z.pos (digits2_pos M) + E) by lia.
  rewrite Hc. replace (E - (E - k)) with k by lia.
  assert (Hshr : shr (shr_record_of_loc (Z.pos m) loc_Exact) (E - k) k
                 = ({| shr_m := Z.pos M; shr_r := false; shr_s := false |}, E)).
  { destruct k as [|p|p]; [| |lia].
    - cbn [shr shr_record_of_loc]. rewrite Z.pow_0_r, Z.mul_1_r in Hm.
      injection Hm as ->. f_equal. lia.
    - cbn [shr shr_record_of_loc]. rewrite (pos_of_pow2 _ _ _ Hm).
      rewrite iter_shr_1_xO. f_equal. lia. }
  rewrite Hshr. cbn [shr_m loc_of_shr_record round_nearest_even].
  unfold shr_fexp. cbn [Zdigits2]. rewrite Hc, Z.sub_diag.
  cbn [shr shr_record_of_loc shr_m].
  apply Z.leb_le in Hb. rewrite Hb. reflexivity.
Qed.

Lemma binary_round_exact s m e M E :
  fexp prec emax (Z.pos (digits2_pos M) + E) = E -> E <= emax - prec ->
  (e <= E /\ Z.pos m = Z.pos M * 2 ^ (E - e)
   \/ E <= e /\ Z.pos M = Z.pos m * 2 ^ (e - E)) ->
  binary_round prec emax s m e = S754_finite s M E.
Proof.
  intros Hc Hb [[He Hm]|[He Hm]]; unfold binary_round.
  - pose proof (digits2_pos_shift m M (E - e) ltac:(lia) Hm) as Hd.
    rewrite Hd.
    replace (Z.pos (digits2_pos M) + (E - e) + e)
      with (Z.pos (digits2_pos M) + E) by lia.
    rewrite Hc. unfold shl_align.
    destruct (E - e) as [|p|p] eqn:Hp; try lia.
    + rewrite Hm. replace e with (E - 0) by lia.
      apply binary_round_aux_exact; auto; lia.
    + rewrite Hm. replace e with (E - Z.pos p) by lia.
      apply binary_round_aux_exact; auto; lia.
  - pose proof (digits2_pos_shift M m (e - E) ltac:(lia) Hm) as Hd.
    replace (Z.pos (digits2_pos m) + e)
      with (Z.pos (digits2_pos M) + E) by lia.
    rewrite Hc. unfold shl_align.
    destruct (E - e) as [|p|p] eqn:Hp; try lia.
    + assert (e = E) by lia. subst e.
      rewrite Z.sub_diag, Z.pow_0_r, Z.mul_1_r in Hm. injection Hm as ->.
      replace (Z.pos m) with (Z.pos m * 2 ^ 0) by (rewrite Z.pow_0_r; lia).
      replace E with (E - 0) at 1 by lia.
      apply binary_round_aux_exact; auto; lia.
    + assert (Hk : e - E = Z.pos p) by lia. rewrite Hk in Hm.
      rewrite <- (pos_of_pow2 _ _ _ Hm).
      replace (Z.pos M) with (Z.pos M * 2 ^ 0) by (rewrite Z.pow_0_r; lia).
      replace E with (E - 0) at 1 by lia.
      apply binary_round_aux_exact; auto; lia.
Qed.

(** The mantissa and exponent of a positive integer below [2^53]: the
    integer shifted left to 53 digits. *)
Lemma float_of_Z_spec z :
  0 < z < 2 ^ 53 ->
  exists M,
    Prim2SF (float_of_Z z) = S754_finite false M (Zdigits2 z - 53)
    /\ Z.pos M = z * 2 ^ (53 - Zdigits2 z).
Proof.
  intros Hz. unfold float_of_Z.
  assert ((z <? 0) = false) as -> by (apply Z.ltb_ge; lia).
  rewrite of_uint63_spec, Uint63.of_Z_spec.
  assert (Hwb : Uint63.wB = 2 ^ 63) by reflexivity.
  rewrite Z.mod_small
    by (rewrite Hwb; change (2 ^ 53) with 9007199254740992 in Hz;
        change (2 ^ 63) with 9223372036854775808; lia).
  destruct z as [|p|p]; try lia. cbn [binary_normalize Zdigits2].
  pose proof (Zdigits2_le (Z.pos p) 53 ltac:(lia) ltac:(lia)) as Hp.
  cbn [Zdigits2] in Hp.
  set (d := Z.pos (digits2_pos p)) in *.
  assert (Hd : 0 < d) by (unfold d; lia).
  assert (HM : exists M, Z.pos M = Z.pos p * 2 ^ (53 - d)).
  { assert (0 < Z.pos p * 2 ^ (53 - d))
      by (apply Z.mul_pos_pos; [lia|apply Z.pow_pos_nonneg; lia]).
    destruct (Z.pos p * 2 ^ (53 - d)) as [|M|M]; try lia. now exists M. }
  destruct HM as [M HM]. exists M. split; [|exact HM].
  pose proof (digits2_pos_shift M p (53 - d) ltac:(lia) HM) as HdM.
  fold d in HdM.
  apply binary_round_exact.
  - unfold fexp, SpecFloat.emin, prec, emax. lia.
  - unfold prec, emax. lia.
  - right. split; [lia|]. rewrite HM. f_equal. f_equal. lia.
Qed.

Lemma Zdigits2_pos z : 0 < z -> 0 < Zdigits2 z.
Proof. destruct z; cbn [Zdigits2]; lia. Qed.

Lemma Zdigits2_mono a b : 0 < a <= b -> Zdigits2 a <= Zdigits2 b.
Proof.
  intros H. apply Zdigits2_le; [|pose proof (Zdigits2_pos b); lia].
  destruct b as [|p|p]; try lia. cbn [Zdigits2].
  pose proof (digits2_pos_gt p). lia.
Qed.

Lemma shl_align_fst m e e' :
  e' <= e -> Z.pos (fst (shl_align m e e')) = Z.pos m * 2 ^ (e - e').
Proof.
  intros H. unfold shl_align.
  destruct (e' - e) as [|p|p] eqn:Hp; cbn [fst]; try lia.
  - replace (e - e') with 0 by lia. rewrite Z.pow_0_r. lia.
  - rewrite iter_xO_pow2. f_equal. f_equal. lia.
Qed.

(** Adding two positive integers whose sum is below [2^53] is exact. *)
Lemma float_of_Z_add a b :
  0 < a -> 0 < b -> a + b < 2 ^ 53 ->
  (float_of_Z a + float_of_Z b)%float = float_of_Z (a + b).
Proof.
  intros Ha Hb Hab.
  destruct (float_of_Z_spec a ltac:(lia)) as [Ma [HA HMa]].
  destruct (float_of_Z_spec b ltac:(lia)) as [Mb [HB HMb]].
  destruct (float_of_Z_spec (a + b) ltac:(lia)) as [M [HS HM]].
  pose proof (Zdigits2_mono a (a + b) ltac:(lia)) as Da.
  pose proof (Zdigits2_mono b (a + b) ltac:(lia)) as Db.
  pose proof (Zdigits2_le (a + b) 53 ltac:(lia) ltac:(lia)) as Dab.
  pose proof (Zdigits2_pos a Ha) as Pa. pose proof (Zdigits2_pos b Hb) as Pb.
  set (da := Zdigits2 a) in *. set (db := Zdigits2 b) in *.
  set (d := Zdigits2 (a + b)) in *.
  apply Prim2SF_inj. rewrite add_spec, HA, HB, HS.
  unfold SF64add, SFadd. cbn [cond_Zopp].
  set (ez := Z.min (da - 53) (db - 53)).
  pose proof (shl_align_fst Ma (da - 53) ez ltac:(unfold ez; lia)) as Sa.
  pose proof (shl_align_fst Mb (db - 53) ez ltac:(unfold ez; lia)) as Sb.
  set (ma := fst (shl_align Ma (da - 53) ez)) in *.
  set (mb := fst (shl_align Mb (db - 53) ez)) in *.
  change (Z.pos ma + Z.pos mb) with (Z.pos (ma + mb)).
  cbn [binary_normalize].
  apply binary_round_exact.
  - pose proof (digits2_pos_shift M (Z.to_pos (a + b)) (53 - d)) as HdM.
    rewrite Z2Pos.id in HdM by lia.
    specialize (HdM ltac:(lia) HM).
    assert (Z.pos (digits2_pos (Z.to_pos (a + b))) = d) as Hd'.
    { unfold d. destruct (a + b) as [|p|p]; try lia. reflexivity. }
    rewrite Hd' in HdM.
    unfold fexp, SpecFloat.emin, prec, emax. lia.
  - unfold prec, emax. lia.
  - left. split; [unfold ez; lia|].
    rewrite Pos2Z.inj_add, Sa, Sb, HMa, HMb, HM.
    rewrite <- !Z.mul_assoc, <- !Z.pow_add_r by (unfold ez; lia).
    replace (53 - da + (da - 53 - ez)) with (- ez) by lia.
    replace (53 - db + (db - 53 - ez)) with (- ez) by lia.
    replace (53 - d + (d - 53 - ez)) with (- ez) by lia.
    ring.
Qed.

Lemma float_of_Z_mantissa z M :
  0 < z < 2 ^ 53 -> Z.pos M = z * 2 ^ (53 - Zdigits2 z) ->
  Z.pos (digits2_pos M) = 53.
Proof.
  intros Hz HM.
  pose proof (Zdigits2_le z 53 ltac:(lia) ltac:(lia)) as Hd.
  destruct z as [|p|p]; try lia. cbn [Zdigits2] in *.
  rewrite (digits2_pos_shift M p (53 - Z.pos (digits2_pos p)) ltac:(lia) HM).
  lia.
Qed.

(** Halving an integer and rounding down: [Math.floor(c / 2)]. *)
Lemma float_of_Z_half_floor c :
  0 < c < 2 ^ 53 ->
  Math_floor (float_of_Z c / 2) = float_of_Z (c / 2).
Proof.
  intros Hc.
  destruct (float_of_Z_spec c Hc) as [M [HC HM]].
  pose proof (float_of_Z_mantissa c M Hc HM) as HdM.
  pose proof (Zdigits2_le c 53 ltac:(lia) ltac:(lia)) as Hd.
  pose proof (Zdigits2_pos c ltac:(lia)) as Hp.
  set (d := Zdigits2 c) in *.
  assert (Hq : Prim2SF (float_of_Z c / 2) = S754_finite false M (d - 54)).
  { rewrite div_spec, HC.
    change (Prim2SF 2) with (S754_finite false 4503599627370496 (-51)).
    unfold SF64div, SFdiv, SFdiv_core_binary. cbn [Zdigits2]. rewrite HdM.
    change (Z.pos (digits2_pos 4503599627370496)) with 53.
    assert (He : Z.min (fexp prec emax (53 + (d - 53) - (53 + -51)))
                   (d - 53 - -51) = d - 55)
      by (unfold fexp, SpecFloat.emin, prec, emax; lia).
    rewrite He. replace (d - 53 - -51 - (d - 55)) with 53 by lia.
    cbv iota. rewrite Z.shiftl_mul_pow2 by lia.
    replace (Z.pos M * 2 ^ 53) with (4503599627370496 * (Z.pos M * 2 ^ 1))
      by (change (2 ^ 53) with 9007199254740992; change (2 ^ 1) with 2; lia).
    rewrite div_eucl_mul by lia.
    change (new_location 4503599627370496 0) with loc_Exact.
    replace (d - 55) with (d - 54 - 1) by lia.
    apply binary_round_aux_exact; unfold fexp, SpecFloat.emin, prec, emax;
      lia. }
  unfold Math_floor. rewrite Hq.
  assert ((0 <=? d - 54) = false) as -> by (apply Z.leb_gt; lia).
  cbn [cond_Zopp]. rewrite Z.shiftr_div_pow2 by lia. f_equal.
  rewrite HM. replace (- (d - 54)) with ((53 - d) + 1) by lia.
  rewrite Z.pow_add_r, Z.pow_1_r by lia.
  rewrite (Z.mul_comm c), Z.div_mul_cancel_l; [reflexivity|lia|].
  apply Z.pow_nonzero; lia.
Qed.

(** The order of two positive integers below [2^53] is the order of the
    Numbers. *)
Lemma float_of_Z_compare a b :
  0 < a < 2 ^ 53 -> 0 < b < 2 ^ 53 ->
  SFcompare (Prim2SF (float_of_Z a)) (Prim2SF (float_of_Z b))
  = Some (a ?= b).
Proof.
  intros Ha Hb.
  destruct (float_of_Z_spec a Ha) as [Ma [HA HMa]].
  destruct (float_of_Z_spec b Hb) as [Mb [HB HMb]].
  pose proof (Zdigits2_le a 53 ltac:(lia) ltac:(lia)) as Da.
  pose proof (Zdigits2_le b 53 ltac:(lia) ltac:(lia)) as Db.
  rewrite HA, HB, SFcompare_finite. f_equal.
  assert (Hmono : forall x y Mx My,
            0 < x < y -> y < 2 ^ 53 ->
            Z.pos Mx = x * 2 ^ (53 - Zdigits2 x) ->
            Z.pos My = y * 2 ^ (53 - Zdigits2 y) ->
            lex_compare (Zdigits2 x - 53) Mx (Zdigits2 y - 53) My = Lt).
  { intros x y Mx My Hxy Hy HMx HMy. apply lex_compare_Lt.
    pose proof (Zdigits2_mono x y ltac:(lia)) as Hm.
    destruct (Z.eq_dec (Zdigits2 x) (Zdigits2 y)) as [Heq|Hne];
      [right|left; lia].
    split; [lia|]. rewrite Heq in HMx.
    pose proof (Zdigits2_le y 53 ltac:(lia) ltac:(lia)).
    assert (0 < 2 ^ (53 - Zdigits2 y)) by (apply Z.pow_pos_nonneg; lia).
    assert (Z.pos Mx < Z.pos My) by nia. lia. }
  destruct (Z.compare_spec a b) as [Heq|Hlt|Hgt].
  - subst b. apply lex_compare_Eq. split; [reflexivity|].
    apply Pos2Z.inj. congruence.
  - apply Hmono; auto; lia.
  - apply lex_compare_Gt.
    pose proof (Hmono b a Mb Ma ltac:(lia) ltac:(lia) HMb HMa) as H.
    apply lex_compare_Lt in H. lia.
Qed.

Lemma float_of_Z_ltb a b :
  0 < a < 2 ^ 53 -> 0 < b < 2 ^ 53 ->
  (float_of_Z a <? float_of_Z b)%float = (a <? b).
Proof.
  intros Ha Hb. rewrite ltb_spec. unfold SFltb.
  rewrite (float_of_Z_compare a b Ha Hb). unfold Z.ltb.
  destruct (a ?= b); reflexivity.
Qed.

Lemma float_of_Z_leb a b :
  0 < a < 2 ^ 53 -> 0 < b < 2 ^ 53 ->
  (float_of_Z a <=? float_of_Z b)%float = (a <=? b).
Proof.
  intros Ha Hb. rewrite leb_spec. unfold SFleb.
  rewrite (float_of_Z_compare a b Ha Hb). unfold Z.leb.
  destruct (a ?= b); reflexivity.
Qed.

Lemma halvings_le j : forall wl wu,
  0 <= wl -> fst (halvings j wl wu) <= wl.
Proof.
  induction j as [|j IH]; intros wl wu H; cbn [halvings fst]; [lia|].
  specialize (IH (wl / 2) ((wu + 1) / 2)).
  assert (0 <= wl / 2 <= wl) by (Z.div_mod_to_equations; lia). lia.
Qed.

Section Brackets.

Context {E : MathEngine}.
Variables (m : CodeModel) (p k target : float).
Variables (lo hi : Z).
Hypothesis lo_pos : 0 < lo.
Hypothesis hi_small : hi < 2 ^ 52.

Lemma midpoint_bracket st a b :
  nMin st = float_of_Z a -> nMax st = float_of_Z b ->
  lo <= a <= b -> b <= hi ->
  midpoint st = float_of_Z ((a + b) / 2).
Proof.
  intros Ha Hb Hab Hhi. unfold midpoint. rewrite Ha, Hb.
  assert (Hs : hi < 4503599627370496) by exact hi_small.
  assert (H53 : 2 ^ 53 = 9007199254740992) by reflexivity.
  rewrite float_of_Z_add by lia.
  apply float_of_Z_half_floor. lia.
Qed.

(** One pass of the loop body halves the bracket: the floor of half the
    width at least, the ceiling at most. *)
Lemma bisect_bracket wl wu st :
  bracket lo hi wl wu st ->
  bracket lo hi (wl / 2) ((wu + 1) / 2) (bisect m p k target st)
  /\ exists c, lo <= c < hi /\ midpoint st = float_of_Z c.
Proof.
  intros (a & b & Ha & Hb & Hab & Hhi & Hlt & Hw).
  pose proof (midpoint_bracket st a b Ha Hb Hab Hhi) as Hmid.
  assert (Hc : a <= (a + b) / 2 <= b /\ (a + b) / 2 < hi
               /\ wl / 2 <= (a + b) / 2 - a <= (wu + 1) / 2
               /\ wl / 2 <= b - (a + b) / 2 <= (wu + 1) / 2)
    by (clear - Hab Hhi Hlt Hw; repeat split; Z.div_mod_to_equations; lia).
  split.
  - unfold bisect.
    destruct (target <? result_epsilon_L (evaluated m p k target st))%float;
      cbn [nMin nMax].
    + exists ((a + b) / 2), b. repeat split; try assumption; lia.
    + exists a, ((a + b) / 2). repeat split; try assumption; lia.
  - exists ((a + b) / 2). split; [lia|exact Hmid].
Qed.


Lemma evaluations_bracket j : forall wl wu st,
  bracket lo hi wl wu st ->
  Forall (fun r => exists z, lo <= z < hi
            /\ r = calculateParams m
                     {| params_p := p; params_n := float_of_Z z;
                        params_k := k; params_epsilon_L := target |})
    (evaluations j m p k target st).
Proof.
  induction j as [|j IH]; intros wl wu st H; cbn [evaluations];
    constructor.
  - destruct (bisect_bracket wl wu st H) as [_ (c & Hc & Hmid)].
    exists c. split; [exact Hc|]. unfold evaluated. now rewrite Hmid.
  - eapply IH. apply (bisect_bracket wl wu st H).
Qed.

Lemma plotEvaluations_bracket j : forall wl wu st,
  bracket lo hi wl wu st ->
  Forall (fun r => exists z, lo <= z < hi
            /\ r = calculateParams m
                     {| params_p := p; params_n := float_of_Z z;
                        params_k := k; params_epsilon_L := target |})
    (plotEvaluations j m p k target st).
Proof.
  induction j as [|j IH]; intros wl wu st H; cbn [plotEvaluations];
    constructor.
  - destruct (bisect_bracket wl wu st H) as [_ (c & Hc & Hmid)].
    exists c. split; [exact Hc|]. unfold evaluated. now rewrite Hmid.
  - destruct (1e9 <? nMin (bisect m p k target st))%float; [constructor|].
    eapply IH. apply (bisect_bracket wl wu st H).
Qed.

(** The inner loop of [generatePlotData]: the variable [n] stays an integer
    of the range, and the bracket is never narrower than [j] halvings make
    it. *)
Lemma plotSearch_bracket j : forall wl wu st n,
  0 <= wl ->
  bracket lo hi wl wu st ->
  (exists z, lo <= z < hi /\ n = float_of_Z z) ->
  (exists wu',
     bracket lo hi (fst (halvings j wl wu)) wu'
       (fst (plotSearch j m p k target st n)))
  /\ exists z, lo <= z < hi
       /\ snd (plotSearch j m p k target st n) = float_of_Z z.
Proof.
  induction j as [|j IH]; intros wl wu st n Hwl H Hn.
  - cbn [plotSearch halvings fst snd]. split; [now exists wu|exact Hn].
  - rewrite plotSearch_S.
    destruct (bisect_bracket wl wu st H) as [Hb (c & Hc & Hmid)].
    destruct (1e9 <? nMin (bisect m p k target st))%float.
    + cbn [fst snd]. split; [|now exists c].
      exists ((wu + 1) / 2).
      destruct Hb as (a & b & Ha & Hb & Hab & Hhi & Hlt & Hw).
      exists a, b. repeat split; try assumption; try lia.
      assert (Hwl' : 0 <= wl / 2) by (apply Z.div_pos; lia).
      pose proof (halvings_le j (wl / 2) ((wu + 1) / 2) Hwl') as Hl.
      cbn [halvings]. lia.
    + cbn [halvings]. apply IH; [apply Z.div_pos; lia|exact Hb|].
      now exists c.
Qed.

End Brackets.


(** [Math.floor] and [Math.ceil] leave an integer as it is. *)
Lemma float_of_Z_floor z :
  0 < z < 2 ^ 53 -> Math_floor (float_of_Z z) = float_of_Z z.
Proof.
  intros Hz. destruct (float_of_Z_spec z Hz) as [M [HZ HM]].
  pose proof (Zdigits2_le z 53 ltac:(lia) ltac:(lia)) as Hd.
  unfold Math_floor. rewrite HZ.
  destruct (0 <=? Zdigits2 z - 53) eqn:He; [reflexivity|].
  apply Z.leb_gt in He. cbn [cond_Zopp].
  rewrite Z.shiftr_div_pow2 by lia. f_equal. rewrite HM.
  replace (- (Zdigits2 z - 53)) with (53 - Zdigits2 z) by lia.
  apply Z.div_mul. apply Z.pow_nonzero; lia.
Qed.

Lemma opp_involutive x : (- - x)%float = x.
Proof.
  apply Prim2SF_inj. rewrite !opp_spec.
  destruct (Prim2SF x) as [s|s| |s m e]; cbn [SFopp];
    rewrite ?negb_involutive; reflexivity.
Qed.

Lemma float_of_Z_ceil z :
  0 < z < 2 ^ 53 -> Math_ceil (float_of_Z z) = float_of_Z z.
Proof.
  intros Hz. destruct (float_of_Z_spec z Hz) as [M [HZ HM]].
  pose proof (Zdigits2_le z 53 ltac:(lia) ltac:(lia)) as Hd.
  unfold Math_ceil, Math_floor. rewrite opp_spec, HZ. cbn [SFopp negb].
  destruct (0 <=? Zdigits2 z - 53) eqn:He; [apply opp_involutive|].
  apply Z.leb_gt in He. cbn [cond_Zopp].
  rewrite Z.shiftr_div_pow2 by lia. rewrite HM.
  replace (- (Zdigits2 z - 53)) with (53 - Zdigits2 z) by lia.
  rewrite <- Z.mul_opp_l, Z.div_mul by (apply Z.pow_nonzero; lia).
  unfold float_of_Z at 1.
  assert ((- z <? 0) = true) as -> by (apply Z.ltb_lt; lia).
  rewrite Z.opp_involutive, opp_involutive. unfold float_of_Z.
  assert ((z <? 0) = false) as -> by (apply Z.ltb_ge; lia).
  reflexivity.
Qed.

(** Adding [+0] to an integer changes nothing. *)
Lemma float_of_Z_add_0 z :
  0 < z < 2 ^ 53 -> (float_of_Z z + 0)%float = float_of_Z z.
Proof.
  intros Hz. destruct (float_of_Z_spec z Hz) as [M [HZ HM]].
  apply Prim2SF_inj. rewrite add_spec, HZ. reflexivity.
Qed.

Section IntegerSearches.

Context {E : MathEngine}.

Lemma result_n_registered code m params :
  codeLibrary code = Some m ->
  result_n (calculateParams m params) = params_n params.
Proof.
  intros H.
  destruct (registered_model code m H) as [->|[->|[->|[->|[->| ->]]]]];
    reflexivity.
Qed.

Lemma findRequiredN_start_bracket :
  bracket 10 1000000 999990 999990 findRequiredN_start.
Proof. exists 10, 1000000. repeat split; lia. Qed.

Lemma plotSearch_start_bracket :
  bracket 10 10000000000 9999999990 9999999990 plotSearch_start.
Proof. exists 10, 10000000000. repeat split; lia. Qed.

(** What [findRequiredN] returns was evaluated at an integer from 10 to
    999999. *)
Lemma findRequiredN_evaluated_at_integer code m p target k r :
  codeLibrary code = Some m ->
  findRequiredN code p target k = Some r ->
  exists z,
    10 <= z <= 999999
    /\ r = calculateParams m
             {| params_p := p; params_n := float_of_Z z; params_k := k;
                params_epsilon_L := target |}.
Proof.
  intros Hm. unfold findRequiredN. rewrite Hm.
  destruct (threshold m <=? p)%float; [discriminate|]. intros Hr.
  pose proof (findRequiredN_best_seen m p k target 20) as Hbest.
  rewrite Hr in Hbest. destruct Hbest as [Hin _].
  pose proof (evaluations_bracket m p k target 10 1000000 ltac:(lia)
                ltac:(reflexivity) 20 _ _ _ findRequiredN_start_bracket)
    as Hall.
  rewrite Forall_forall in Hall. destruct (Hall r Hin) as (z & Hz & Hr').
  exists z. split; [lia|exact Hr'].
Qed.

End IntegerSearches.

End Integers.


Section IntegerResults.

Context {E : MathEngine}.

(** X1. For a registered code, every midpoint that [findRequiredN]
    evaluates is an integer from 10 to 999999, and so is the [n] of the
    Result it returns: that Result is the evaluation at its own [n], and
    [Math.ceil] leaves this [n] as it is. *)
Theorem findRequiredN_returns_integer_n (code : string) (m : CodeModel)
  (p target k : float) :
  codeLibrary code = Some m ->
  Forall
    (fun r => exists z : Z,
       (10 <= z <= 999999)%Z
       /\ r = calculateParams m
                {| params_p := p; params_n := float_of_Z z; params_k := k;
                   params_epsilon_L := target |})
    (evaluations 20 m p k target findRequiredN_start)
  /\ forall r,
       findRequiredN code p target k = Some r ->
       (exists z : Z, (10 <= z <= 999999)%Z /\ result_n r = float_of_Z z)
       /\ Math_ceil (result_n r) = result_n r
       /\ r = calculateParams m
                {| params_p := p; params_n := result_n r; params_k := k;
                   params_epsilon_L := target |}.
Proof.
  intros Hm. split.
  - pose proof (evaluations_bracket m p k target 10 1000000 ltac:(lia)
                  ltac:(reflexivity) 20 _ _ _ findRequiredN_start_bracket)
      as Hall.
    eapply Forall_impl; [|exact Hall].
    intros r (z & Hz & Hr). exists z. split; [lia|exact Hr].
  - intros r Hr.
    destruct (findRequiredN_evaluated_at_integer code m p target k r Hm Hr)
      as (z & Hz & ->).
    rewrite (result_n_registered code m _ Hm). cbn [params_n].
    split; [exists z; split; [lia|reflexivity]|].
    split; [|reflexivity].
    apply float_of_Z_ceil. change (2 ^ 53)%Z with 9007199254740992%Z. lia.
Qed.


(** What one pass of the outer loop records is an integer of the range. *)
Lemma plotPoint_integer code m p k epsilon_L n :
  codeLibrary code = Some m ->
  plotPoint m p k epsilon_L = Some n ->
  exists z : Z, (10 <= z < 10000000000)%Z /\ n = float_of_Z z.
Proof.
  intros Hm. rewrite plotPoint_spec.
  assert (Hn : exists z : Z,
             (10 <= z < 10000000000)%Z /\ 10%float = float_of_Z z)
    by (exists 10%Z; split; [lia|reflexivity]).
  destruct (bestResult (fst (plotSearch 30 m p k epsilon_L
                               plotSearch_start 10))) as [best|] eqn:Hb.
  - destruct (1e9 <? result_n best)%float; [discriminate|].
    intros H. injection H as <-.
    pose proof (plotSearch_best_seen m p k epsilon_L 30 10) as Hbest.
    rewrite Hb in Hbest. destruct Hbest as [Hin _].
    pose proof (plotEvaluations_bracket m p k epsilon_L 10 10000000000
                  ltac:(lia) ltac:(reflexivity) 30 _ _ _
                  plotSearch_start_bracket) as Hall.
    rewrite Forall_forall in Hall. destruct (Hall best Hin) as (z & Hz & ->).
    exists z. split; [exact Hz|].
    now rewrite (result_n_registered code m _ Hm).
  - intros H. injection H as <-.
    exact (proj2 (plotSearch_bracket m p k epsilon_L 10 10000000000
                    ltac:(lia) ltac:(reflexivity) 30 9999999990%Z
                    9999999990%Z plotSearch_start 10%float
                    ltac:(lia) plotSearch_start_bracket Hn)).
Qed.

Lemma samples_integer code m epsilon_L k indices :
  codeLibrary code = Some m ->
  Forall (fun n => exists z : Z,
            (10 <= z < 10000000000)%Z /\ n = float_of_Z z)
    (snd (fst (samples code m epsilon_L k indices))).
Proof.
  intros Hm. induction indices as [|i indices IH]; cbn [samples].
  - constructor.
  - destruct (threshold m <=? sample_p (threshold m) i)%float;
      [constructor|].
    destruct (plotPoint m (sample_p (threshold m) i) k epsilon_L)
      as [n|] eqn:Hp; [|constructor].
    destruct (samples code m epsilon_L k indices) as [[ps ns] ks].
    cbn [fst snd] in *. constructor; [|exact IH].
    exact (plotPoint_integer code m _ k epsilon_L n Hm Hp).
Qed.

Lemma generatePlotData_registered code m epsilon_L k :
  codeLibrary code = Some m ->
  exists data, generatePlotData code epsilon_L k = Some data.
Proof.
  intros Hm. unfold generatePlotData. rewrite Hm.
  destruct (samples code m epsilon_L k (seq 0 50)) as [[ps ns] ks].
  eexists. reflexivity.
Qed.

(** X3. Every [n] that [generatePlotData] records is an integer from 10 to
    below 1e10, the bounds of its inner search. *)
Theorem plotted_n_is_integer (code : string) (epsilon_L k : float)
  (data : PlotData) :
  generatePlotData code epsilon_L k = Some data ->
  Forall (fun n => exists z : Z,
            (10 <= z < 10000000000)%Z /\ n = float_of_Z z)
    (nValues data).
Proof.
  unfold generatePlotData.
  destruct (codeLibrary code) as [m|] eqn:Hm; [|discriminate].
  pose proof (samples_integer code m epsilon_L k (seq 0 50) Hm) as H.
  destruct (samples code m epsilon_L k (seq 0 50)) as [[ps ns] ks].
  intros Hd. injection Hd as <-. exact H.
Qed.

End IntegerResults.

Lemma findRequiredN_returns_integer_n_witness :
  @codeLibrary square_engine "surface" = Some (@surface square_engine)
  /\ Forall
       (fun r => exists z : Z,
          (10 <= z <= 999999)%Z
          /\ r = calculateParams (@surface square_engine)
                   {| params_p := 0.001; params_n := float_of_Z z;
                      params_k := 1; params_epsilon_L := 1e-6 |})
       (@evaluations square_engine 20 (@surface square_engine) 0.001 1
          1e-6 findRequiredN_start).
Proof.
  split; [reflexivity|].
  exact (proj1 (@findRequiredN_returns_integer_n square_engine "surface"
                  (@surface square_engine) 0.001 1e-6 1 eq_refl)).
Defined.

Lemma plotted_n_is_integer_witness :
  exists data,
    @generatePlotData square_engine "surface" 1e-6 1 = Some data
    /\ Forall (fun n => exists z : Z,
                 (10 <= z < 10000000000)%Z /\ n = float_of_Z z)
         (nValues data).
Proof.
  destruct (@generatePlotData_registered square_engine "surface"
              (@surface square_engine) 1e-6 1 eq_refl) as [data H].
  exists data. split; [exact H|].
  exact (@plotted_n_is_integer square_engine "surface" 1e-6 1 data H).
Defined.


Section ComponentProperties.

Context {E : MathEngine}.



(** The three lists grow together; only [pValues] can be one ahead. *)
Lemma samples_lengths code m epsilon_L k indices :
  let '(ps, ns, ks) := samples code m epsilon_L k indices in
  List.length ns = List.length ks
  /\ (List.length ns <= List.length ps <= S (List.length ns))%nat
  /\ (List.length ps <= List.length indices)%nat.
Proof.
  induction indices as [|i indices IH]; cbn [samples].
  - cbn. lia.
  - destruct (threshold m <=? sample_p (threshold m) i); [cbn; lia|].
    destruct (plotPoint m (sample_p (threshold m) i) k epsilon_L);
      [|cbn; lia].
    destruct (samples code m epsilon_L k indices) as [[ps ns] ks].
    cbn [List.length]. lia.
Qed.

Lemma generatePlotData_lengths code epsilon_L k data :
  generatePlotData code epsilon_L k = Some data ->
  List.length (nValues data) = List.length (kValues data)
  /\ (List.length (nValues data) <= List.length (pValues data)
      <= S (List.length (nValues data)))%nat
  /\ (List.length (pValues data) <= 50)%nat.
Proof.
  unfold generatePlotData.
  destruct (codeLibrary code) as [m|]; [|discriminate].
  pose proof (samples_lengths code m epsilon_L k (seq 0 50)) as H.
  destruct (samples code m epsilon_L k (seq 0 50)) as [[ps ns] ks].
  intros Hd. injection Hd as <-. cbn [pValues nValues kValues].
  rewrite length_seq in H. exact H.
Qed.

(** X5. The lists returned by [generatePlotData] are aligned: [nValues]
    and [kValues] have the same length, [pValues] has that length or one
    more (the sample pushed before the sampling was stopped), and at most
    50 samples are taken. *)
Theorem plot_lists_aligned (code : string) (epsilon_L k : float)
  (data : PlotData) :
  generatePlotData code epsilon_L k = Some data ->
  List.length (nValues data) = List.length (kValues data)
  /\ (List.length (nValues data) <= List.length (pValues data)
      <= S (List.length (nValues data)))%nat
  /\ (List.length (pValues data) <= 50)%nat.
Proof.
  exact (generatePlotData_lengths code epsilon_L k data).
Qed.

Lemma samples_kValues code m epsilon_L k indices :
  code <> "hypergraph"%string -> code <> "lifted"%string ->
  Forall (fun logicalQubits => logicalQubits = 1)
    (snd (samples code m epsilon_L k indices)).
Proof.
  intros H1 H2. induction indices as [|i indices IH]; cbn [samples].
  - constructor.
  - destruct (threshold m <=? sample_p (threshold m) i); [constructor|].
    destruct (plotPoint m (sample_p (threshold m) i) k epsilon_L);
      [|constructor].
    destruct (samples code m epsilon_L k indices) as [[ps ns] ks].
    cbn [snd] in *. constructor; [|exact IH].
    unfold logicalQubits.
    destruct (String.eqb_spec code "hypergraph"); [contradiction|].
    destruct (String.eqb_spec code "lifted"); [contradiction|].
    reflexivity.
Qed.

(** X6. For the surface, color and yoked codes every entry of [kValues] is
    1, whatever [k] the curve was computed with. *)
Theorem distance_codes_plot_one_logical_qubit (code : string)
  (epsilon_L k : float) (data : PlotData) :
  generatePlotData code epsilon_L k = Some data ->
  code <> "hypergraph"%string -> code <> "lifted"%string ->
  Forall (fun logicalQubits => logicalQubits = 1) (kValues data).
Proof.
  unfold generatePlotData.
  destruct (codeLibrary code) as [m|]; [|discriminate].
  intros Hd H1 H2.
  pose proof (samples_kValues code m epsilon_L k (seq 0 50) H1 H2) as H.
  destruct (samples code m epsilon_L k (seq 0 50)) as [[ps ns] ks].
  injection Hd as <-. exact H.
Qed.

(** A row is the evaluation at the parameters of its own link. *)
Lemma tableRow_link code m target p r :
  codeLibrary code = Some m ->
  findRequiredN code p target 1 = Some r ->
  let row := tableRow code target p r in
  row = tableRow code target (row_p row)
          (calculateParams m
             {| params_p := link_p row; params_n := link_n row;
                params_k := link_k row;
                params_epsilon_L := link_epsilon_L row |})
  /\ (exists z : Z, (10 <= z <= 999999)%Z /\ row_n row = float_of_Z z)
  /\ (row_d row = None ->
      row_n_ancilla row = 0 /\ row_total row = row_n row).
Proof.
  intros Hm Hr row.
  destruct (findRequiredN_evaluated_at_integer code m p target 1 r Hm Hr)
    as (z & Hz & Hrz).
  assert (Hn : result_n r = float_of_Z z)
    by (rewrite Hrz; now rewrite (result_n_registered code m _ Hm)).
  assert (Hz53 : (0 < z < 2 ^ 53)%Z)
    by (change (2 ^ 53)%Z with 9007199254740992%Z; lia).
  assert (Hc : Math_ceil (result_n r) = float_of_Z z)
    by (rewrite Hn; now apply float_of_Z_ceil).
  subst row. cbn [row_p link_p link_n link_k link_epsilon_L row_n row_d
                  row_n_ancilla row_total tableRow].
  rewrite Hc. split; [|split].
  - rewrite <- Hrz. reflexivity.
  - exists z. split; [exact Hz|reflexivity].
  - intros Hd.
    assert (Ha : result_n_ancilla r = None).
    { rewrite Hrz in Hd |- *.
      destruct (registered_model code m Hm)
        as [->|[->|[->|[->|[->| ->]]]]];
        try discriminate Hd; reflexivity. }
    rewrite Ha. cbn [or_zero]. split; [reflexivity|].
    rewrite Hn, float_of_Z_add_0 by exact Hz53.
    now apply float_of_Z_ceil.
Qed.

(** X7. In each regime table of a registered code there are four entries;
    an entry is [null] or a row whose cells are the evaluation of the code
    at the parameters of the row's own link ([p], [n = Math.ceil(result.n)],
    [k = 1]), whose [n] is an integer from 10 to 999999, and which, for the
    codes without a distance, shows 0 ancilla qubits and a total equal to
    [n]. *)
Theorem table_row_link_reproduces_row (code : string) (m : CodeModel)
  (target : float) :
  codeLibrary code = Some m ->
  List.length (regimeTable code target) = 4%nat
  /\ Forall
       (fun entry =>
          match entry with
          | None => True
          | Some row =>
              row = tableRow code target (row_p row)
                      (calculateParams m
                         {| params_p := link_p row; params_n := link_n row;
                            params_k := link_k row;
                            params_epsilon_L := link_epsilon_L row |})
              /\ (exists z : Z,
                    (10 <= z <= 999999)%Z /\ row_n row = float_of_Z z)
              /\ (row_d row = None ->
                  row_n_ancilla row = 0 /\ row_total row = row_n row)
          end)
       (regimeTable code target).
Proof.
  intros Hm. split; [reflexivity|].
  unfold regimeTable, table_error_rates. cbn [map].
  repeat constructor;
    match goal with
    | |- match option_map _ (findRequiredN code ?p target 1) with _ => _ end =>
        destruct (findRequiredN code p target 1) as [r|] eqn:Hr;
        cbn [option_map]; [exact (tableRow_link code m target p r Hm Hr)
                          |exact I]
    end.
Qed.

Lemma points_from_nth ps ns ks : forall j i pt,
  nth_error (points_from j ps ns ks) i = Some pt ->
  nth_error ps i = Some (point_x pt)
  /\ point_y pt = nth_error ns (j + i)
  /\ point_k pt = nth_error ks (j + i).
Proof.
  induction ps as [|p ps IH]; intros j i pt; cbn [points_from].
  - destruct i; discriminate.
  - destruct i as [|i]; cbn [nth_error].
    + intros H. injection H as <-. cbn. rewrite Nat.add_0_r. auto.
    + intros H. destruct (IH (S j) i pt H) as (H1 & H2 & H3).
      replace (j + S i)%nat with (S j + i)%nat by lia. auto.
Qed.

Lemma points_from_length ps ns ks : forall j,
  List.length (points_from j ps ns ks) = List.length ps.
Proof.
  induction ps as [|p ps IH]; intros j; cbn [points_from List.length];
    [reflexivity|]. now rewrite IH.
Qed.

(** X8. A plotted curve has one point per entry of [pValues], in order;
    every point but the last has its [y] (from [nValues]) and its [k] (from
    [kValues]) defined, and the last one has them exactly when the sampling
    was not stopped after pushing its [p]. *)
Theorem plotted_points_defined (code : string) (epsilon_L k : float)
  (points : list Point) :
  plotDataset code epsilon_L k = Some points ->
  exists data,
    generatePlotData code epsilon_L k = Some data
    /\ List.length points = List.length (pValues data)
    /\ forall i point,
         nth_error points i = Some point ->
         nth_error (pValues data) i = Some (point_x point)
         /\ point_y point = nth_error (nValues data) i
         /\ point_k point = nth_error (kValues data) i
         /\ ((S i < List.length points)%nat ->
             point_y point <> None /\ point_k point <> None)
         /\ (point_y point <> None <-> (i < List.length (nValues data))%nat).
Proof.
  unfold plotDataset.
  destruct (generatePlotData code epsilon_L k) as [data|] eqn:Hd;
    [|discriminate].
  cbn [option_map]. intros H. injection H as <-.
  exists data. split; [reflexivity|].
  split; [apply points_from_length|].
  intros i point Hi.
  destruct (points_from_nth _ _ _ 0 i point Hi) as (H1 & H2 & H3).
  cbn [Nat.add] in H2, H3.
  destruct (generatePlotData_lengths code epsilon_L k data Hd)
    as (L1 & L2 & L3).
  rewrite points_from_length.
  repeat split; try assumption.
  - rewrite H2. apply nth_error_Some. lia.
  - rewrite H3. apply nth_error_Some. lia.
  - rewrite H2. apply nth_error_Some.
  - rewrite H2. apply nth_error_Some.
Qed.

End ComponentProperties.


(** *** Truthiness, the effect on the distance and the results panel *)

Lemma truthy_spec x :
  truthy x = match Prim2SF x with
             | S754_zero _ | S754_nan => false
             | _ => true
             end.
Proof.
  unfold truthy, PrimFloat.is_zero, PrimFloat.is_nan.
  rewrite !eqb_spec. unfold SFeqb.
  change (Prim2SF zero) with (S754_zero false).
  destruct (Prim2SF x) as [s|s| |s m e] eqn:Hx.
  - reflexivity.
  - destruct s; reflexivity.
  - reflexivity.
  - rewrite SFcompare_refl by discriminate. destruct s; reflexivity.
Qed.

(** A product with [+0] is a zero or NaN. *)
Lemma mul_zero_falsy k : truthy (k * 0) = false.
Proof.
  rewrite truthy_spec, mul_spec.
  change (Prim2SF 0) with (S754_zero false).
  destruct (Prim2SF k) as [s|s| |s m e]; reflexivity.
Qed.

Lemma opp_truthy n k :
  (1 <=? n) = true -> (n <? k) = true -> truthy (- k) = true.
Proof.
  rewrite leb_spec, ltb_spec, truthy_spec, opp_spec. unfold SFleb, SFltb.
  change (Prim2SF 1) with (S754_finite false 4503599627370496 (-52)).
  destruct (Prim2SF n) as [sn|sn| |sn mn en];
    destruct (Prim2SF k) as [sk|sk| |sk mk ek];
    cbn [SFcompare SFopp]; try reflexivity; try discriminate;
    destruct sn; try discriminate; destruct sk; discriminate.
Qed.

Section Display.

Context {E : MathEngine}.

Lemma zero_distance_display (r : Result) (inputs_d : float) :
  result_d r = Some 0 ->
  syncDistance (result_d r) inputs_d = inputs_d
  /\ panel_d (resultsPanel r) = Falsy 0.
Proof.
  intros H. unfold resultsPanel. cbn [panel_d]. rewrite H.
  split; reflexivity.
Qed.

Lemma truthy_ancilla_display (r : Result) (a : float) :
  result_n_ancilla r = Some a -> truthy a = true ->
  panel_n_ancilla (resultsPanel r) = Row (Math_ceil a).
Proof.
  intros H Ht. unfold resultsPanel. cbn [panel_n_ancilla]. rewrite H.
  cbn [guarded]. now rewrite Ht.
Qed.

(** X9. When [1 <= n < k], the Result of each distance-based code has the
    falsy distance 0: the effect that copies [results.d] to [inputs.d]
    leaves [inputs.d] as it was, and the panel shows no distance row.  For
    the surface and color codes the ancilla row is shown with the negative
    count [Math.ceil(-k)]. *)
Theorem degenerate_result_display (p n k target inputs_d : float) :
  exact_squares E ->
  (1 <=? n) = true -> (n <? k) = true ->
  let params :=
    {| params_p := p; params_n := n; params_k := k;
       params_epsilon_L := target |} in
  Forall
    (fun m =>
       syncDistance (result_d (calculateParams m params)) inputs_d
       = inputs_d
       /\ panel_d (resultsPanel (calculateParams m params)) = Falsy 0)
    [surface; color; yoked_1d; yoked_2d]
  /\ panel_n_ancilla (resultsPanel (calculateParams surface params))
     = Row (Math_ceil (- k))
  /\ panel_n_ancilla (resultsPanel (calculateParams color params))
     = Row (Math_ceil (- k)).
Proof.
  intros HE Hn Hk params.
  destruct (degenerate_distance_binary64 E p n k target HE Hn Hk)
    as ((S1 & S2) & (C1 & C2) & (Y1 & _) & (Z1 & _)).
  pose proof (opp_truthy n k Hn Hk) as Ht.
  split; [|split].
  - repeat constructor; now apply zero_distance_display.
  - now apply truthy_ancilla_display.
  - now apply truthy_ancilla_display.
Qed.

(** X10. When the surface or the color code returns the distance 1, its
    ancilla count [k * ((1 - 1)^2 + 2 * (1 - 1))] is a zero, or NaN: the
    panel shows neither the ancilla row nor the total row, and a table row
    shows 0 ancilla qubits. *)
Theorem distance_one_shows_no_ancilla (m : CodeModel) (params : Params) :
  m = surface \/ m = color ->
  result_d (calculateParams m params) = Some 1 ->
  truthy_property (result_n_ancilla (calculateParams m params)) = false
  /\ (exists a,
        panel_n_ancilla (resultsPanel (calculateParams m params))
        = Falsy a)
  /\ (exists a,
        panel_total (resultsPanel (calculateParams m params)) = Falsy a)
  /\ or_zero (result_n_ancilla (calculateParams m params)) = 0.
Proof.
  assert (H0 : Math_pow (1 - 1) 2 + 2 * (1 - 1) = 0)
    by (destruct E; reflexivity).
  assert (Hfalsy :
    forall r : Result,
      result_n_ancilla r = Some (params_k params * 0) ->
      truthy_property (result_n_ancilla r) = false
      /\ (exists a, panel_n_ancilla (resultsPanel r) = Falsy a)
      /\ (exists a, panel_total (resultsPanel r) = Falsy a)
      /\ or_zero (result_n_ancilla r) = 0).
  { intros r Hr. unfold resultsPanel. cbn [panel_n_ancilla panel_total].
    rewrite Hr. cbn [truthy_property guarded or_zero].
    rewrite mul_zero_falsy. split; [reflexivity|].
    split; [eexists; reflexivity|]. split; [|reflexivity].
    destruct (truthy (result_n r)); eexists; reflexivity. }
  intros [-> | ->] Hd; apply Hfalsy;
    cbn [calculateParams surface color result_d result_n_ancilla] in *;
    injection Hd as Hd; rewrite Hd, H0; reflexivity.
Qed.

End Display.

Lemma distance_one_shows_no_ancilla_witness :
  result_d
    (calculateParams (@surface square_engine)
       {| params_p := 0.001; params_n := 1; params_k := 1;
          params_epsilon_L := 1e-6 |}) = Some 1
  /\ or_zero
       (result_n_ancilla
          (calculateParams (@surface square_engine)
             {| params_p := 0.001; params_n := 1; params_k := 1;
                params_epsilon_L := 1e-6 |})) = 0.
Proof.
  split; [reflexivity|].
  exact (proj2 (proj2 (proj2
           (@distance_one_shows_no_ancilla square_engine
              (@surface square_engine)
              {| params_p := 0.001; params_n := 1; params_k := 1;
                 params_epsilon_L := 1e-6 |}
              (or_introl eq_refl) eq_refl)))).
Defined.

Lemma degenerate_result_display_witness :
  exact_squares square_engine
  /\ (1 <=? 5) = true /\ (5 <? 10) = true
  /\ panel_n_ancilla
       (resultsPanel
          (calculateParams (@surface square_engine)
             {| params_p := 0.001; params_n := 5; params_k := 10;
                params_epsilon_L := 1e-6 |}))
     = Row (Math_ceil (- 10)).
Proof.
  split; [exact square_engine_exact|]. split; [reflexivity|].
  split; [reflexivity|].
  exact (proj1 (proj2
           (@degenerate_result_display square_engine 0.001 5 10 1e-6 3
              square_engine_exact eq_refl eq_refl))).
Defined.


(** *** The earlier version against the current one *)

Section LegacyAgreement.

Context {E : MathEngine}.

(** The three codes of the earlier library are codes of the current one,
    with the same formulas. *)
Lemma legacy_codeLibrary code m :
  Legacy.codeLibrary code = Some m ->
  codeLibrary code = Some m
  /\ (code = "surface" \/ code = "hypergraph" \/ code = "lifted")%string.
Proof.
  unfold Legacy.codeLibrary.
  destruct (String.eqb_spec code "surface") as [->|H1].
  { intros H. injection H as <-. split; [reflexivity|auto]. }
  destruct (String.eqb_spec code "hypergraph") as [->|H2].
  { intros H. injection H as <-. split; [reflexivity|auto]. }
  destruct (String.eqb_spec code "lifted") as [->|H3].
  { intros H. injection H as <-. split; [reflexivity|auto]. }
  discriminate.
Qed.

(** The loop body of the earlier [findRequiredN] moves [nMin], [nMax],
    [minDiff] and [bestResult] as the current one does. *)
Lemma legacy_bisect m p k target st' st :
  Legacy.nMin st' = nMin st -> Legacy.nMax st' = nMax st ->
  Legacy.minDiff st' = minDiff st ->
  Legacy.bestResult st' = bestResult st ->
  Legacy.nMin (Legacy.bisect m p k target st')
  = nMin (bisect m p k target st)
  /\ Legacy.nMax (Legacy.bisect m p k target st')
     = nMax (bisect m p k target st)
  /\ Legacy.minDiff (Legacy.bisect m p k target st')
     = minDiff (bisect m p k target st)
  /\ Legacy.bestResult (Legacy.bisect m p k target st')
     = bestResult (bisect m p k target st).
Proof.
  intros H1 H2 H3 H4.
  unfold Legacy.bisect, bisect, evaluated, midpoint, log_distance.
  rewrite H1, H2, H3, H4.
  destruct (target <? _); cbn; auto.
Qed.

Lemma legacy_iterate m p k target j : forall st' st,
  Legacy.nMin st' = nMin st -> Legacy.nMax st' = nMax st ->
  Legacy.minDiff st' = minDiff st ->
  Legacy.bestResult st' = bestResult st ->
  Legacy.bestResult (Legacy.iterate j (Legacy.bisect m p k target) st')
  = bestResult (iterate j (bisect m p k target) st).
Proof.
  induction j as [|j IH]; intros st' st H1 H2 H3 H4;
    cbn [Legacy.iterate iterate]; [exact H4|].
  destruct (legacy_bisect m p k target st' st H1 H2 H3 H4)
    as (B1 & B2 & B3 & B4).
  now apply IH.
Qed.

(** X11. On the three codes that the earlier version knows, the current
    [findRequiredN] is the earlier one behind the threshold test: it
    returns [null] when [p >= threshold], and otherwise exactly what the
    earlier version returns. *)
Theorem findRequiredN_is_guarded_legacy (code : string) (m : CodeModel)
  (p target k : float) :
  Legacy.codeLibrary code = Some m ->
  codeLibrary code = Some m
  /\ findRequiredN code p target k
     = if threshold m <=? p then None
       else Legacy.findRequiredN code p target k.
Proof.
  intros Hm. destruct (legacy_codeLibrary code m Hm) as [Hm' _].
  split; [exact Hm'|].
  unfold findRequiredN, Legacy.findRequiredN. rewrite Hm, Hm'.
  destruct (threshold m <=? p); [reflexivity|].
  symmetry. now apply legacy_iterate.
Qed.





End LegacyAgreement.

Lemma findRequiredN_is_guarded_legacy_witness :
  @Legacy.codeLibrary square_engine "surface"
  = Some (@surface square_engine)
  /\ @findRequiredN square_engine "surface" 0.02 1e-6 1 = None.
Proof.
  split; [reflexivity|].
  exact (proj2 (@findRequiredN_is_guarded_legacy square_engine "surface"
                  (@surface square_engine) 0.02 1e-6 1 eq_refl)).
Defined.


(** *** The log scale at zero and at negative values *)

Lemma nan_sub_l y : nan - y = nan.
Proof. apply Prim2SF_inj. rewrite sub_spec. reflexivity. Qed.

Lemma nan_mul_l y : nan * y = nan.
Proof. apply Prim2SF_inj. rewrite mul_spec. reflexivity. Qed.

Lemma neg_infinity_sub_finite x :
  PrimFloat.is_finite x = true -> neg_infinity - x = neg_infinity.
Proof.
  intros H. apply Prim2SF_inj. rewrite sub_spec.
  change (Prim2SF neg_infinity) with (S754_infinity true).
  destruct (finite_cases x H) as [[s ->]|(s & m & e & ->)]; reflexivity.
Qed.

Lemma neg_infinity_div_positive x :
  (0 <? x) = true -> (x <? infinity) = true ->
  neg_infinity / x = neg_infinity.
Proof.
  intros H0 H1. apply Prim2SF_inj. rewrite div_spec.
  change (Prim2SF neg_infinity) with (S754_infinity true).
  destruct (positive_cases x H0) as [Hx|(m & e & ->)]; [|reflexivity].
  rewrite ltb_spec, Hx in H1. discriminate.
Qed.

Lemma Math_log10_negative {E : MathEngine} v :
  (v <? 0) = true -> Math_log10 v = nan.
Proof.
  intros H. unfold Math_log10.
  assert (Hv : exists s, Prim2SF v = S754_infinity s /\ s = true
                         \/ exists m e, Prim2SF v = S754_finite true m e).
  { revert H. rewrite ltb_spec. change (Prim2SF 0) with (S754_zero false).
    destruct (Prim2SF v) as [s|s| |s m e]; try destruct s;
      try (cbn; intros; discriminate); intros _;
      exists true; eauto. }
  assert (H1 : PrimFloat.is_nan v = false).
  { unfold PrimFloat.is_nan. rewrite eqb_spec. unfold SFeqb.
    destruct Hv as [s [[Hs ->]|(m & e & Hs)]]; rewrite Hs;
      [reflexivity|].
    now rewrite SFcompare_refl by discriminate. }
  assert (H2 : (v =? infinity) = false).
  { rewrite eqb_spec. unfold SFeqb.
    change (Prim2SF infinity) with (S754_infinity false).
    destruct Hv as [s [[Hs ->]|(m & e & Hs)]]; rewrite Hs; reflexivity. }
  assert (H3 : (v =? 1) = false).
  { rewrite eqb_spec. unfold SFeqb.
    change (Prim2SF 1) with (S754_finite false 4503599627370496 (-52)).
    destruct Hv as [s [[Hs ->]|(m & e & Hs)]]; rewrite Hs; reflexivity. }
  assert (H4 : PrimFloat.is_zero v = false).
  { unfold PrimFloat.is_zero. rewrite eqb_spec. unfold SFeqb.
    change (Prim2SF zero) with (S754_zero false).
    destruct Hv as [s [[Hs ->]|(m & e & Hs)]]; rewrite Hs; reflexivity. }
  now rewrite H1, H2, H3, H4, H.
Qed.

(** X13. With bounds whose decimal logarithms the engine returns as finite
    Numbers, the larger above the smaller, [toLogScale] sends the value 0
    to [-Infinity] and every negative value to NaN. *)
Theorem toLogScale_outside_domain (E : MathEngine) (min max : float) :
  PrimFloat.is_finite (Math_log10 min) = true ->
  (0 <? Math_log10 max - Math_log10 min) = true ->
  (Math_log10 max - Math_log10 min <? infinity) = true ->
  toLogScale 0 min max = neg_infinity
  /\ forall value, (value <? 0) = true -> toLogScale value min max = nan.
Proof.
  intros Hfin Hpos Hlt. unfold toLogScale. split.
  - assert (H0 : Math_log10 0 = neg_infinity) by reflexivity.
    rewrite H0, (neg_infinity_sub_finite _ Hfin),
      (neg_infinity_div_positive _ Hpos Hlt).
    reflexivity.
  - intros value Hv.
    rewrite (Math_log10_negative value Hv), nan_sub_l, div_nan_l, nan_mul_l.
    reflexivity.
Qed.

Lemma toLogScale_outside_domain_witness :
  @toLogScale decade_engine 0 1e-6 1e-1 = neg_infinity
  /\ @toLogScale decade_engine (-1) 1e-6 1e-1 = nan.
Proof.
  pose proof (toLogScale_outside_domain decade_engine 1e-6 1e-1
                eq_refl eq_refl eq_refl) as [H0 H1].
  split; [exact H0|]. exact (H1 (-1) eq_refl).
Defined.


(** *** The bracket straddles the target *)

Section Straddle.

Context {E : MathEngine}.
Variables (m : CodeModel) (p k target : float).

Lemma bisect_straddles lo hi st :
  (nMin st = lo \/ (target <? rate_at m p k target (nMin st)) = true) ->
  (nMax st = hi \/ (target <? rate_at m p k target (nMax st)) = false) ->
  (nMin (bisect m p k target st) = lo
   \/ (target <? rate_at m p k target (nMin (bisect m p k target st)))
      = true)
  /\ (nMax (bisect m p k target st) = hi
      \/ (target <? rate_at m p k target (nMax (bisect m p k target st)))
         = false).
Proof.
  intros Hlo Hhi.
  assert (Hr : rate_at m p k target (midpoint st)
               = result_epsilon_L (evaluated m p k target st))
    by reflexivity.
  unfold bisect. rewrite <- Hr.
  destruct (target <? rate_at m p k target (midpoint st)) eqn:Hc;
    cbn [nMin nMax]; split; auto.
Qed.

Lemma iterate_straddles lo hi j : forall st,
  (nMin st = lo \/ (target <? rate_at m p k target (nMin st)) = true) ->
  (nMax st = hi \/ (target <? rate_at m p k target (nMax st)) = false) ->
  (nMin (iterate j (bisect m p k target) st) = lo
   \/ (target
       <? rate_at m p k target
            (nMin (iterate j (bisect m p k target) st))) = true)
  /\ (nMax (iterate j (bisect m p k target) st) = hi
      \/ (target
          <? rate_at m p k target
               (nMax (iterate j (bisect m p k target) st))) = false).
Proof.
  induction j as [|j IH]; intros st Hlo Hhi; cbn [iterate]; [auto|].
  destruct (bisect_straddles lo hi st Hlo Hhi) as [H1 H2].
  exact (IH _ H1 H2).
Qed.

Lemma plotSearch_straddles lo hi j : forall st n,
  (nMin st = lo \/ (target <? rate_at m p k target (nMin st)) = true) ->
  (nMax st = hi \/ (target <? rate_at m p k target (nMax st)) = false) ->
  (nMin (fst (plotSearch j m p k target st n)) = lo
   \/ (target
       <? rate_at m p k target
            (nMin (fst (plotSearch j m p k target st n)))) = true)
  /\ (nMax (fst (plotSearch j m p k target st n)) = hi
      \/ (target
          <? rate_at m p k target
               (nMax (fst (plotSearch j m p k target st n)))) = false).
Proof.
  induction j as [|j IH]; intros st n Hlo Hhi.
  - cbn [plotSearch fst]. auto.
  - rewrite plotSearch_S.
    destruct (bisect_straddles lo hi st Hlo Hhi) as [H1 H2].
    destruct (1e9 <? nMin (bisect m p k target st)).
    + cbn [fst]. auto.
    + exact (IH _ _ H1 H2).
Qed.

End Straddle.

(** X14. Both searches keep their bracket around the target: when the loop
    ends, [nMin] is still the initial 10 or a midpoint at which the logical
    error rate was above the target, and [nMax] is still the initial bound
    (1e6, 1e10) or a midpoint at which the rate was not above the target. *)
Theorem search_bracket_straddles_target (E : MathEngine) (m : CodeModel)
  (p target k : float) :
  ((nMin (iterate 20 (bisect m p k target) findRequiredN_start) = 10
    \/ (target
        <? rate_at m p k target
             (nMin (iterate 20 (bisect m p k target) findRequiredN_start)))
       = true)
   /\ (nMax (iterate 20 (bisect m p k target) findRequiredN_start) = 1e6
       \/ (target
           <? rate_at m p k target
                (nMax (iterate 20 (bisect m p k target)
                         findRequiredN_start))) = false))
  /\ ((nMin (fst (plotSearch 30 m p k target plotSearch_start 10)) = 10
       \/ (target
           <? rate_at m p k target
                (nMin (fst (plotSearch 30 m p k target plotSearch_start
                              10)))) = true)
      /\ (nMax (fst (plotSearch 30 m p k target plotSearch_start 10))
          = 1e10
          \/ (target
              <? rate_at m p k target
                   (nMax (fst (plotSearch 30 m p k target plotSearch_start
                                 10)))) = false)).
Proof.
  split.
  - exact (iterate_straddles m p k target 10 1e6 20 findRequiredN_start
             (or_introl eq_refl) (or_introl eq_refl)).
  - exact (plotSearch_straddles m p k target 10 1e10 30 plotSearch_start 10
             (or_introl eq_refl) (or_introl eq_refl)).
Qed.

(** *** Instances *)

Lemma plot_lists_aligned_witness :
  exists data,
    @generatePlotData square_engine "surface" 1e-6 1 = Some data
    /\ List.length (nValues data) = List.length (kValues data).
Proof.
  destruct (@generatePlotData_registered square_engine "surface"
              (@surface square_engine) 1e-6 1 eq_refl) as [data H].
  exists data. split; [exact H|].
  exact (proj1 (@plot_lists_aligned square_engine "surface" 1e-6 1 data H)).
Defined.

Lemma distance_codes_plot_one_logical_qubit_witness :
  exists data,
    @generatePlotData square_engine "color" 1e-6 10 = Some data
    /\ Forall (fun logicalQubits => logicalQubits = 1) (kValues data).
Proof.
  destruct (@generatePlotData_registered square_engine "color"
              (@color square_engine) 1e-6 10 eq_refl) as [data H].
  exists data. split; [exact H|].
  refine (@distance_codes_plot_one_logical_qubit square_engine "color"
            1e-6 10 data H _ _); intros H'; discriminate H'.
Defined.

Lemma table_row_link_reproduces_row_witness :
  @codeLibrary square_engine "lifted" = Some (@lifted square_engine)
  /\ List.length (@regimeTable square_engine "lifted" 1e-6) = 4%nat.
Proof.
  split; [reflexivity|].
  exact (proj1 (@table_row_link_reproduces_row square_engine "lifted"
                  (@lifted square_engine) 1e-6 eq_refl)).
Defined.

Lemma plotted_points_defined_witness :
  exists points data,
    @plotDataset square_engine "surface" 1e-6 1 = Some points
    /\ @generatePlotData square_engine "surface" 1e-6 1 = Some data
    /\ List.length points = List.length (pValues data).
Proof.
  destruct (@generatePlotData_registered square_engine "surface"
              (@surface square_engine) 1e-6 1 eq_refl) as [data H].
  assert (Hp : @plotDataset square_engine "surface" 1e-6 1
               = Some (points_from 0 (pValues data) (nValues data)
                         (kValues data)))
    by (unfold plotDataset; rewrite H; reflexivity).
  destruct (@plotted_points_defined square_engine "surface" 1e-6 1 _ Hp)
    as (data' & H1 & H2 & _).
  exists (points_from 0 (pValues data) (nValues data) (kValues data)), data'.
  auto.
Defined.

End Binary64.

(** ** Exact reading *)

Module Exact.

Import Ideal.

Local Open Scope R_scope.

(** *** [Math.floor], [Math.ceil], [Math.pow] and [Math.log10] *)

Lemma Math_floor_spec x z : IZR z <= x < IZR z + 1 -> Math_floor x = IZR z.
Proof.
  intros H. unfold Math_floor. f_equal. symmetry. apply Int_part_spec. lra.
Qed.



Lemma Math_floor_IZR z : Math_floor (IZR z) = IZR z.
Proof. apply Math_floor_spec. lra. Qed.


Lemma Math_pow_minus_one_squared : Math_pow (0 - 1) 2 = 1.
Proof.
  unfold Math_pow.
  destruct (Req_dec_T 2 0) as [H|_]; [lra|].
  destruct (Rlt_dec 0 (0 - 1)) as [H|_]; [lra|].
  destruct (Req_dec_T (0 - 1) 0) as [H|_]; [lra|].
  rewrite (Math_floor_IZR 2).
  destruct (Req_dec_T 2 2) as [_|H]; [|lra].
  replace (Int_part 2) with 2%Z by (apply Int_part_spec; lra).
  simpl. replace (- (0 - 1)) with 1 by ring.
  unfold Rpower. rewrite ln_1, Rmult_0_r. apply exp_0.
Qed.







(** *** The log-scale mapping *)


(** *** The sampling grid *)












(** *** Distance and logical error rate as functions of [n] *)


Lemma inner_distance_zero n k : 0 <= n < k -> inner_distance n k = 0.
Proof.
  intros [Hn Hk]. unfold inner_distance, Math_sqrt.
  apply (Math_floor_spec _ 0). split.
  - apply sqrt_pos.
  - replace (0 + 1) with (sqrt 1) by (rewrite sqrt_1; ring).
    apply sqrt_lt_1_alt. split.
    + apply Rmult_le_pos; [lra|]. left. apply Rinv_0_lt_compat. lra.
    + apply Rmult_lt_reg_r with k; [lra|]. field_simplify; lra.
Qed.







(** In exact arithmetic [1 <= n < k] gives the distance 0 and the ancilla
    counts [-k], [-(1.2 k)] and [-(1.5 k)]. *)
Lemma degenerate_distance_exact (p n k target : R) :
  1 <= n -> n < k ->
  let params :=
    {| params_p := p; params_n := n; params_k := k;
       params_epsilon_L := target |} in
  (result_d (calculateParams surface params) = Some 0
   /\ result_n_ancilla (calculateParams surface params) = Some (- k))
  /\ (result_d (calculateParams color params) = Some 0
      /\ result_n_ancilla (calculateParams color params) = Some (- k))
  /\ (result_d (calculateParams yoked_1d params) = Some 0
      /\ result_n_ancilla (calculateParams yoked_1d params)
         = Some (- (1.2 * k)))
  /\ (result_d (calculateParams yoked_2d params) = Some 0
      /\ result_n_ancilla (calculateParams yoked_2d params)
         = Some (- (1.5 * k)))
  /\ - k < 0 /\ - (1.2 * k) < 0 /\ - (1.5 * k) < 0.
Proof.
  intros Hn Hk params.
  assert (Hd : inner_distance n k = 0) by (apply inner_distance_zero; lra).
  unfold inner_distance in Hd. subst params.
  cbn -[Math_floor Math_sqrt Math_pow].
  rewrite Hd, !Rmult_0_r, (Math_floor_IZR 0), Math_pow_minus_one_squared.
  repeat split; try (f_equal; ring); lra.
Qed.


(** *** The sliders *)









(** *** The formulas as functions of [p], and across the families *)






















End Exact.

(** ** Properties stated on both readings *)






(** C10. For [1 <= n < k] the four distance-based codes return a Result
    with [d = 0] and a negative ancilla count: [-k] for surface and color,
    [-1.2 k] for yoked_1d, [-1.5 k] for yoked_2d.  This holds in exact
    arithmetic, and in binary64 for all Numbers [n] and [k] with
    [1 <= n] and [n < k], on every engine that squares small integers
    exactly. *)
Theorem degenerate_distance :
  (forall p n k target : R,
     (1 <= n)%R -> (n < k)%R ->
     let params :=
       {| Ideal.params_p := p; Ideal.params_n := n; Ideal.params_k := k;
          Ideal.params_epsilon_L := target |} in
     (Ideal.result_d (Ideal.calculateParams Ideal.surface params)
      = Some 0%R
      /\ Ideal.result_n_ancilla (Ideal.calculateParams Ideal.surface params)
         = Some (- k)%R)
     /\ (Ideal.result_d (Ideal.calculateParams Ideal.color params)
         = Some 0%R
         /\ Ideal.result_n_ancilla (Ideal.calculateParams Ideal.color params)
            = Some (- k)%R)
     /\ (Ideal.result_d (Ideal.calculateParams Ideal.yoked_1d params)
         = Some 0%R
         /\ Ideal.result_n_ancilla
              (Ideal.calculateParams Ideal.yoked_1d params)
            = Some (- (1.2 * k))%R)
     /\ (Ideal.result_d (Ideal.calculateParams Ideal.yoked_2d params)
         = Some 0%R
         /\ Ideal.result_n_ancilla
              (Ideal.calculateParams Ideal.yoked_2d params)
            = Some (- (1.5 * k))%R)
     /\ (- k < 0)%R /\ (- (1.2 * k) < 0)%R /\ (- (1.5 * k) < 0)%R)
  /\ (forall (E : JS.MathEngine) (p n k target : float),
        JS.exact_squares E ->
        (1 <=? n)%float = true -> (n <? k)%float = true ->
        let params :=
          {| JS.params_p := p; JS.params_n := n; JS.params_k := k;
             JS.params_epsilon_L := target |} in
        (JS.result_d (JS.calculateParams JS.surface params) = Some 0%float
         /\ JS.result_n_ancilla (JS.calculateParams JS.surface params)
            = Some (- k)%float)
        /\ (JS.result_d (JS.calculateParams JS.color params) = Some 0%float
            /\ JS.result_n_ancilla (JS.calculateParams JS.color params)
               = Some (- k)%float)
        /\ (JS.result_d (JS.calculateParams JS.yoked_1d params)
            = Some 0%float
            /\ JS.result_n_ancilla (JS.calculateParams JS.yoked_1d params)
               = Some (- (1.2 * k))%float)
        /\ (JS.result_d (JS.calculateParams JS.yoked_2d params)
            = Some 0%float
            /\ JS.result_n_ancilla (JS.calculateParams JS.yoked_2d params)
               = Some (- (1.5 * k))%float)).
Proof.
  split.
  - exact Exact.degenerate_distance_exact.
  - exact Binary64.degenerate_distance_binary64.
Qed.

Lemma degenerate_distance_witness :
  ((1 <= 5)%R /\ (5 < 10)%R
   /\ Ideal.result_d
        (Ideal.calculateParams Ideal.surface
           {| Ideal.params_p := 0.001; Ideal.params_n := 5;
              Ideal.params_k := 10; Ideal.params_epsilon_L := 1e-6 |})
      = Some 0%R)
  /\ JS.exact_squares JS.square_engine
  /\ (1 <=? 5)%float = true /\ (5 <? 10)%float = true
  /\ JS.result_n_ancilla
       (@JS.calculateParams (@JS.yoked_1d JS.square_engine)
          {| JS.params_p := 0.001; JS.params_n := 5; JS.params_k := 10;
             JS.params_epsilon_L := 1e-6 |})
     = Some (- (1.2 * 10))%float.
Proof.
  assert (H1 : (1 <= 5)%R) by lra.
  assert (H2 : (5 < 10)%R) by lra.
  split.
  - split; [exact H1|]. split; [exact H2|].
    exact (proj1 (proj1 (proj1 degenerate_distance 0.001 5 10 1e-6
                           H1 H2)))%R.
  - split; [exact Binary64.square_engine_exact|].
    split; [reflexivity|]. split; [reflexivity|].
    exact (proj2 (proj1 (proj2 (proj2
             (proj2 degenerate_distance JS.square_engine 0.001 5 10 1e-6
                Binary64.square_engine_exact eq_refl eq_refl)))))%float.
Defined.
